(** * ascii_art.py: image to ASCII art conversion

    A shallow embedding of [image_to_ascii] (src/ascii_art.py) and the
    properties of its specification.

    - Python [int] is [Z]; Python [float] is an IEEE 754 binary64 value,
      modelled by [spec_float] with the operations of [SpecFloat]
      instantiated at [prec = 53] and [emax = 1024].
    - Python [str] is [string]; its characters are 8-bit [ascii] values
      (the program only measures, indexes, reverses and concatenates them).
    - Python exceptions are the values of [exn]; a computation that may
      raise returns a [res]; a computation that also consults the file
      system runs in the monad [M] over a [world].
    - Pillow is an external library: decoding is part of the [world] (a
      path names an image Pillow can decode, a file it cannot decode, or
      nothing), and [Image.resize] is the interface [Resampler].
    - Memory is unbounded: no list is too long to build.
    - [parse_args] and [main] (argument parsing, printing, writing the
      output file) are not modelled. *)

From Stdlib Require Import ZArith QArith Qround Qpower String Ascii List Lia.
From Stdlib Require Import SpecFloat.
From stdpp Require Import gmap strings list.

Local Open Scope Z_scope.

(** ** Python values and exceptions *)

Module Py.

(** The exceptions [image_to_ascii] can raise, with their messages. *)
Inductive exn : Type :=
| FileNotFoundError (msg : string)
| ValueError (msg : string)
| OverflowError (msg : string)
| ZeroDivisionError (msg : string)
| IndexError (msg : string)
| UnidentifiedImageError.

Inductive res (A : Type) : Type :=
| Ok (a : A)
| Raise (e : exn).
Arguments Ok {A} a.
Arguments Raise {A} e.

Definition rbind {A B} (r : res A) (k : A -> res B) : res B :=
  match r with
  | Ok a => k a
  | Raise e => Raise e
  end.

Fixpoint rmap {A B} (f : A -> res B) (l : list A) : res (list B) :=
  match l with
  | [] => Ok []
  | x :: l' =>
      rbind (f x) (fun y => rbind (rmap f l') (fun ys => Ok (y :: ys)))
  end.

Definition is_ok {A} (r : res A) : bool :=
  match r with Ok _ => true | Raise _ => false end.

(** *** float *)

Definition prec : Z := 53.
Definition emax : Z := 1024.

(** The double nearest to [m * 2^e]. *)
Definition float_lit (m e : Z) : spec_float :=
  binary_normalize prec emax m e false.

Definition SFis_finite (x : spec_float) : bool :=
  match x with
  | S754_zero _ | S754_finite _ _ _ => true
  | S754_infinity _ | S754_nan => false
  end.

(** [float(z)] as it happens when an [int] meets a [float] in an
    arithmetic operation: the nearest double, or OverflowError. *)
Definition float_of_int (z : Z) : res spec_float :=
  match binary_normalize prec emax z 0 false with
  | S754_infinity _ => Raise (OverflowError "int too large to convert to float")
  | x => Ok x
  end.

(** [a / b] on two [int]s: the correctly rounded quotient. *)
Definition int_truediv (a b : Z) : res spec_float :=
  match a, b with
  | _, Z0 => Raise (ZeroDivisionError "division by zero")
  | Z0, _ => Ok (S754_zero (b <? 0))
  | _, _ =>
      let '(mz, ez, lz) :=
        SFdiv_core_binary prec emax (Z.abs a) 0 (Z.abs b) 0 in
      match binary_round_aux prec emax (xorb (a <? 0) (b <? 0)) mz ez lz with
      | S754_infinity _ =>
          Raise (OverflowError "integer division result too large for a float")
      | x => Ok x
      end
  end.

Definition float_mul (x y : spec_float) : spec_float := SFmul prec emax x y.

(** [int(x)] on a [float]: truncation toward zero. *)
Definition int_of_float (x : spec_float) : res Z :=
  match x with
  | S754_nan => Raise (ValueError "cannot convert float NaN to integer")
  | S754_infinity _ =>
      Raise (OverflowError "cannot convert float infinity to integer")
  | S754_zero _ => Ok 0
  | S754_finite s m e => Ok (cond_Zopp s (Z.shiftl (Z.pos m) e))
  end.

(** *** str and list *)

Definition newline : ascii := "010"%char.

Definition len (s : string) : Z := Z.of_nat (String.length s).

(** [s[i]]: a negative index counts from the end. *)
Definition getitem (s : string) (i : Z) : res ascii :=
  let j := if i <? 0 then i + len s else i in
  if (j <? 0) || (len s <=? j) then
    Raise (IndexError "string index out of range")
  else
    match String.get (Z.to_nat j) s with
    | Some c => Ok c
    | None => Raise (IndexError "string index out of range")
    end.

(** [s[::-1]] *)
Definition reversed (s : string) : string :=
  string_of_list_ascii (rev (list_ascii_of_string s)).

(** [range(start, stop, step)], listed. *)
Definition range (start stop step : Z) : res (list Z) :=
  if step =? 0 then Raise (ValueError "range() arg 3 must not be zero")
  else if 0 <? step then
    Ok ((fun k => start + k * step) <$> seqZ 0 ((stop - start + step - 1) / step))
  else
    Ok ((fun k => start + k * step) <$> seqZ 0 ((start - stop - step - 1) / (- step))).

(** A slice bound, clamped to the sequence as Python does. *)
Definition slice_bound (n i : Z) : Z :=
  if i <? 0 then Z.max 0 (i + n) else Z.min i n.

(** [l[lo:hi]] *)
Definition slice {A} (l : list A) (lo hi : Z) : list A :=
  let n := Z.of_nat (length l) in
  let a := slice_bound n lo in
  let b := slice_bound n hi in
  take (Z.to_nat (b - a)) (drop (Z.to_nat a) l).

(** ["".join(cs)] on a list of one-character strings. *)
Definition join_chars (cs : list ascii) : string := string_of_list_ascii cs.

(** [sep.join(ls)] *)
Definition join (sep : string) (ls : list string) : string :=
  String.concat sep ls.

(** [s.split("\n")] *)
Fixpoint split_lines (s : string) : list string :=
  match s with
  | EmptyString => [EmptyString]
  | String c s' =>
      if Ascii.eqb c newline then EmptyString :: split_lines s'
      else
        match split_lines s' with
        | [] => [String c EmptyString]
        | r :: rs => String c r :: rs
        end
  end.

End Py.
Import Py.


(** ** Pillow *)

Module Pillow.

(** An image of mode "L": its size and its pixels, row by row, one
    8-bit intensity each ([Image.size], [Image.getdata()]). *)
Record bitmap : Type := Bitmap {
  bm_width : Z;
  bm_height : Z;
  getdata : list Z
}.

Definition pixel_ok (p : Z) : Prop := 0 <= p <= 255.

Definition wf_bitmap (img : bitmap) : Prop :=
  0 <= bm_width img /\ 0 <= bm_height img /\
  Z.of_nat (length (getdata img)) = bm_width img * bm_height img /\
  Forall pixel_ok (getdata img).

(** [Image.resize((w, h))] with the default filter. Which filter is
    not fixed here; whatever it is, it returns an image of the size
    asked for when that size is at least 1 x 1. *)
Class Resampler : Type := {
  resize : bitmap -> Z -> Z -> res bitmap;
  resize_ok : forall img w h,
    wf_bitmap img -> 0 < bm_width img -> 0 < bm_height img ->
    1 <= w -> 1 <= h ->
    exists out, resize img w h = Ok out /\
                bm_width out = w /\ bm_height out = h /\ wf_bitmap out
}.

(** Nearest-neighbour sampling, one instance of the interface. *)
Definition nearest_pixel (img : bitmap) (w h x y : Z) : Z :=
  let sx := x * bm_width img / w in
  let sy := y * bm_height img / h in
  nth (Z.to_nat (sy * bm_width img + sx)) (getdata img) 0.

Definition nearest_resize (img : bitmap) (w h : Z) : res bitmap :=
  if (w <? 1) || (h <? 1) then
    Raise (ValueError "height and width must be > 0")
  else
    Ok (Bitmap w h
          (flat_map (fun y => (fun x => nearest_pixel img w h x y) <$> seqZ 0 w)
                    (seqZ 0 h))).

End Pillow.
Import Pillow.

(** ** The file system and the monad of the program *)

(** What a path names: an image Pillow decodes, given as the result of
    [Image.open(path).convert("L")], or a regular file it cannot decode. *)
Inductive file : Type :=
| ImageFile (img : bitmap)
| OtherFile.

Record world : Type := World { fs : gmap string file }.

Definition M (A : Type) : Type := world -> res A * world.

Definition ret {A} (a : A) : M A := fun w => (Ok a, w).

Definition raise {A} (e : exn) : M A := fun w => (Raise e, w).

Definition bind {A B} (m : M A) (k : A -> M B) : M B :=
  fun w =>
    match m w with
    | (Ok a, w') => k a w'
    | (Raise e, w') => (Raise e, w')
    end.

Definition lift {A} (r : res A) : M A := fun w => (r, w).

#[export] Instance M_ret : MRet M := @ret.
#[export] Instance M_bind : MBind M := fun A B k m => bind m k.

(** [os.path.isfile(path)] *)
Definition os_path_isfile (path : string) : M bool :=
  fun w => (Ok (bool_decide (is_Some (fs w !! path))), w).

(** [Image.open(path)] followed by [.convert("L")] *)
Definition Image_open_L (path : string) : M bitmap :=
  fun w =>
    match fs w !! path with
    | Some (ImageFile img) => (Ok img, w)
    | Some OtherFile => (Raise UnidentifiedImageError, w)
    | None => (Raise (FileNotFoundError ("No such file or directory: " +:+ path)), w)
    end.

(** ** ascii_art.py *)

Definition DEFAULT_GRADIENT : string := "@%#*+=-:. ".

(** [gradient if gradient is not None else DEFAULT_GRADIENT] *)
Definition gradient_or_default (gradient : option string) : string :=
  match gradient with
  | Some g => g
  | None => DEFAULT_GRADIENT
  end.

(** [p * (n - 1) // 255] *)
Definition gradient_index (n p : Z) : Z := p * (n - 1) / 255.

(** [[gradient[p * (n - 1) // 255] for p in pixels]] *)
Definition map_pixels (gradient : string) (pixels : list Z) : res (list ascii) :=
  let n := len gradient in
  rmap (fun p => getitem gradient (gradient_index n p)) pixels.

(** [orig_h * (width / orig_w) * y_scale] *)
Definition scaled_height (orig_h width orig_w : Z) (y_scale : spec_float)
  : res spec_float :=
  rbind (int_truediv width orig_w) (fun ratio =>
  rbind (float_of_int orig_h) (fun h =>
  Ok (float_mul (float_mul h ratio) y_scale))).

(** [max(1, int(orig_h * (width / orig_w) * y_scale))] *)
Definition new_height (orig_h width orig_w : Z) (y_scale : spec_float) : res Z :=
  rbind (scaled_height orig_h width orig_w y_scale) (fun v =>
  rbind (int_of_float v) (fun i =>
  Ok (Z.max 1 i))).

(** [["".join(chars[i : i + width]) for i in range(0, len(chars), width)]] *)
Definition make_lines (chars : list ascii) (width : Z) : res (list string) :=
  rbind (range 0 (Z.of_nat (length chars)) width) (fun starts =>
  Ok ((fun i => join_chars (slice chars i (i + width))) <$> starts)).

Section image_to_ascii.
Context `{Resampler}.

Definition image_to_ascii (image_path : string) (width : Z)
    (y_scale : spec_float) (invert : bool) (gradient : option string)
  : M string :=
  isfile ← os_path_isfile image_path;
  (if negb isfile
   then raise (FileNotFoundError ("Input image not found: " +:+ image_path))
   else ret tt);;
  let gradient := gradient_or_default gradient in
  (if len gradient <? 2
   then raise (ValueError "Gradient must contain at least 2 characters.")
   else ret tt);;
  let gradient := if invert then reversed gradient else gradient in
  img ← Image_open_L image_path;
  let orig_w := bm_width img in
  let orig_h := bm_height img in
  (if (orig_w =? 0) || (orig_h =? 0)
   then raise (ValueError "Image has invalid dimensions (0).")
   else ret tt);;
  new_h ← lift (new_height orig_h width orig_w y_scale);
  img ← lift (resize img width new_h);
  let pixels := getdata img in
  chars ← lift (map_pixels gradient pixels);
  lines ← lift (make_lines chars width);
  ret (join (String newline EmptyString) lines).

End image_to_ascii.

(** ** The specification's vocabulary *)

(** The specification names the two [ValueError]s of the program. *)
Definition InvalidParameterError : exn :=
  ValueError "Gradient must contain at least 2 characters.".

Definition InvalidImageError : exn :=
  ValueError "Image has invalid dimensions (0).".

(** The gradient used for mapping: reversed when inverting. *)
Definition effective_gradient (invert : bool) (gradient : string) : string :=
  if invert then reversed gradient else gradient.


(** An integer as a double: the nearest one. *)
Definition double (z : Z) : spec_float := binary_normalize 53 1024 z 0 false.

(** [origHeight * (targetWidth / origWidth) * yScale] in IEEE 754
    double precision: the three integers as doubles, one division and two
    multiplications, each rounded to nearest. *)
Definition spec_product (orig_h width orig_w : Z) (y_scale : spec_float)
  : spec_float :=
  SFmul 53 1024
    (SFmul 53 1024 (double orig_h) (SFdiv 53 1024 (double width) (double orig_w)))
    y_scale.

(** The rational number a finite double stands for. *)
Definition SFvalue (x : spec_float) : option Q :=
  match x with
  | S754_zero _ => Some 0%Q
  | S754_finite s m e => Some (inject_Z (cond_Zopp s (Z.pos m)) * (2 # 1) ^ e)%Q
  | S754_infinity _ | S754_nan => None
  end.

(** [max(1, floor(origHeight * (targetWidth / origWidth) * yScale))],
    the product being the IEEE one and the floor taken in the rationals. *)
Definition spec_new_height (orig_h width orig_w : Z) (y_scale : spec_float)
  : option Z :=
  (fun q => Z.max 1 (Qfloor q)) <$> SFvalue (spec_product orig_h width orig_w y_scale).

(** A double is positive, or is at most zero. *)
Definition float_pos (x : spec_float) : Prop :=
  SFltb (S754_zero false) x = true.


(** A double that is not a NaN has sign bit [s]. *)
Definition SFsigned (s : bool) (x : spec_float) : Prop :=
  match x with
  | S754_nan => True
  | S754_zero s' | S754_infinity s' | S754_finite s' _ _ => s' = s
  end.


(** The last character of a string is a newline. *)
Fixpoint ends_with_newline (s : string) : bool :=
  match s with
  | EmptyString => false
  | String c EmptyString => Ascii.eqb c newline
  | String _ s' => ends_with_newline s'
  end.

(** No character of the string is a newline. *)
Definition newline_free (s : string) : Prop :=
  ~ In newline (list_ascii_of_string s).

(** Lines 88 to 100 of the program, on the decoded image and the gradient in
    use: what [image_to_ascii] returns once its checks have passed. *)
Definition render `{Resampler} (img : bitmap) (width : Z) (y_scale : spec_float)
    (gradient : string) : res string :=
  rbind (new_height (bm_height img) width (bm_width img) y_scale) (fun new_h =>
  rbind (resize img width new_h) (fun out =>
  rbind (map_pixels gradient (getdata out)) (fun chars =>
  rbind (make_lines chars width) (fun lines =>
  Ok (join (String newline EmptyString) lines))))).

(** A computation that leaves the world as it found it. *)
Definition read_only {A} (m : M A) : Prop := forall w, snd (m w) = w.

(** ** Sample images and a sample disk *)

Definition gray2x2 : bitmap := Bitmap 2 2 [128; 128; 128; 128].
Definition dot : bitmap := Bitmap 1 1 [0].
Definition tall : bitmap := Bitmap 1 2 [0; 255].
Definition no_columns : bitmap := Bitmap 0 5 [].

Definition disk : world :=
  World {[ "gray.png" := ImageFile gray2x2;
           "dot.png" := ImageFile dot;
           "tall.png" := ImageFile tall;
           "empty.png" := ImageFile no_columns;
           "notes.txt" := OtherFile ]}.

(** The doubles [1.0], [-1.0] and [2.0 ** 1023]. *)
Definition one : spec_float := float_lit 1 0.
Definition huge : spec_float := float_lit 1 1023.

(** ** The nearest-neighbour resampler meets the interface *)

Lemma length_flat_map_const {A B} (f : A -> list B) (l : list A) (n : nat) :
  (forall a, length (f a) = n) -> length (flat_map f l) = (length l * n)%nat.
Proof.
  intros Hf. induction l as [|a l IH]; simpl; [reflexivity|].
  rewrite length_app, Hf, IH. reflexivity.
Qed.

Lemma nearest_pixel_ok img w h x y :
  Forall pixel_ok (getdata img) -> pixel_ok (nearest_pixel img w h x y).
Proof.
  intros Hall. unfold nearest_pixel.
  destruct (nth_in_or_default
              (Z.to_nat (y * bm_height img / h * bm_width img + x * bm_width img / w))
              (getdata img) 0) as [Hin | ->].
  - rewrite List.Forall_forall in Hall. apply Hall, Hin.
  - unfold pixel_ok. lia.
Qed.

Lemma nearest_resize_ok img w h :
  wf_bitmap img -> 0 < bm_width img -> 0 < bm_height img ->
  1 <= w -> 1 <= h ->
  exists out, nearest_resize img w h = Ok out /\
              bm_width out = w /\ bm_height out = h /\ wf_bitmap out.
Proof.
  intros (_ & _ & _ & Hpx) _ _ Hw Hh. unfold nearest_resize.
  replace (w <? 1) with false by (symmetry; apply Z.ltb_ge; lia).
  replace (h <? 1) with false by (symmetry; apply Z.ltb_ge; lia).
  simpl. eexists. split; [reflexivity|]. simpl.
  split; [reflexivity|]. split; [reflexivity|].
  unfold wf_bitmap; simpl. split; [lia|]. split; [lia|]. split.
  - rewrite (length_flat_map_const _ _ (Z.to_nat w)).
    + rewrite length_seqZ. lia.
    + intros y. rewrite length_fmap, length_seqZ. reflexivity.
  - apply Forall_flat_map, List.Forall_forall. intros y _.
    apply List.Forall_forall. intros p Hp.
    apply list_elem_of_In, list_elem_of_fmap in Hp as (x & -> & _).
    apply nearest_pixel_ok, Hpx.
Qed.

#[export] Instance nearest : Resampler :=
  {| resize := nearest_resize; resize_ok := nearest_resize_ok |}.


(** ** Strings *)

Lemma length_list_ascii_of_string s :
  length (list_ascii_of_string s) = String.length s.
Proof. induction s; simpl; congruence. Qed.

Lemma length_string_of_list_ascii cs :
  String.length (string_of_list_ascii cs) = length cs.
Proof. induction cs; simpl; congruence. Qed.

Lemma len_reversed s : len (reversed s) = len s.
Proof.
  unfold len, reversed.
  rewrite length_string_of_list_ascii, length_rev, length_list_ascii_of_string.
  reflexivity.
Qed.

Lemma len_effective_gradient invert g : len (effective_gradient invert g) = len g.
Proof. destruct invert; simpl; [apply len_reversed | reflexivity]. Qed.

Lemma get_is_Some s n :
  (n < String.length s)%nat -> exists c, String.get n s = Some c.
Proof.
  revert n. induction s as [|a s IH]; intros n Hn; simpl in *; [lia|].
  destruct n as [|n]; [eauto|]. apply IH. lia.
Qed.

Lemma getitem_in_range s i :
  0 <= i < len s ->
  exists c, getitem s i = Ok c /\ String.get (Z.to_nat i) s = Some c.
Proof.
  intros Hi. unfold getitem.
  replace (i <? 0) with false by (symmetry; apply Z.ltb_ge; lia).
  replace (i <? 0) with false by (symmetry; apply Z.ltb_ge; lia).
  replace (len s <=? i) with false by (symmetry; apply Z.leb_gt; lia).
  simpl. destruct (get_is_Some s (Z.to_nat i)) as [c Hc].
  - unfold len in Hi. lia.
  - rewrite Hc. eauto.
Qed.

(** ** Quantization *)


Lemma gradient_index_bounds n p :
  2 <= n -> 0 <= p <= 255 -> 0 <= gradient_index n p <= n - 1.
Proof.
  intros Hn Hp. unfold gradient_index. split.
  - apply Z.div_pos; nia.
  - apply Z.div_le_upper_bound; nia.
Qed.

Lemma rmap_Forall2 {A B} (f : A -> res B) (P : A -> B -> Prop) (l : list A) :
  List.Forall (fun a => exists b, f a = Ok b /\ P a b) l ->
  exists bs, rmap f l = Ok bs /\ Forall2 P l bs.
Proof.
  induction 1 as [|a l (b & Hb & HP) _ (bs & Hbs & HPs)]; simpl.
  - exists []. split; [reflexivity | constructor].
  - rewrite Hb; simpl. rewrite Hbs; simpl.
    exists (b :: bs). split; [reflexivity | constructor; assumption].
Qed.

Lemma map_pixels_ok g pixels :
  2 <= len g -> Forall pixel_ok pixels ->
  exists chars,
    map_pixels g pixels = Ok chars /\
    Forall2 (fun p c => String.get (Z.to_nat (gradient_index (len g) p)) g = Some c)
            pixels chars.
Proof.
  intros Hn Hpx. unfold map_pixels. apply rmap_Forall2.
  eapply List.Forall_impl; [|exact Hpx]. intros p Hp.
  apply getitem_in_range.
  pose proof (gradient_index_bounds (len g) p Hn Hp). lia.
Qed.


(** ** The program only reads the world *)

Lemma read_only_ret {A} (a : A) : read_only (ret a).
Proof. intros w. reflexivity. Qed.

Lemma read_only_raise {A} (e : exn) : read_only (@raise A e).
Proof. intros w. reflexivity. Qed.

Lemma read_only_lift {A} (r : res A) : read_only (lift r).
Proof. intros w. reflexivity. Qed.

Lemma read_only_bind {A B} (m : M A) (k : A -> M B) :
  read_only m -> (forall a, read_only (k a)) -> read_only (m ≫= k).
Proof.
  intros Hm Hk w. unfold mbind, M_bind, bind.
  specialize (Hm w). destruct (m w) as [[a|e] w']; simpl in *; subst w'.
  - apply Hk.
  - reflexivity.
Qed.

Lemma read_only_isfile path : read_only (os_path_isfile path).
Proof. intros w. reflexivity. Qed.

Lemma read_only_open path : read_only (Image_open_L path).
Proof.
  intros w. unfold Image_open_L. destruct (fs w !! path) as [[img|]|]; reflexivity.
Qed.

Lemma read_only_guard (b : bool) (e : exn) :
  read_only (if b then raise e else ret tt).
Proof. destruct b; [apply read_only_raise | apply read_only_ret]. Qed.

Create HintDb read_only.

#[local] Hint Resolve read_only_ret read_only_raise read_only_lift
  read_only_isfile read_only_open read_only_guard : read_only.

Lemma image_to_ascii_read_only `{Resampler} path width y_scale invert gradient :
  read_only (image_to_ascii path width y_scale invert gradient).
Proof.
  unfold image_to_ascii.
  repeat (apply read_only_bind; [auto with read_only | intros ?]);
    auto with read_only.
Qed.

(** ** The result of a run *)

Ltac run_program :=
  unfold image_to_ascii, mbind, M_bind, bind, mret, M_ret, ret, raise, lift,
    os_path_isfile, Image_open_L.


Lemma image_to_ascii_result `{Resampler} path width y_scale invert gradient w :
  fst (image_to_ascii path width y_scale invert gradient w) =
  match fs w !! path with
  | None => Raise (FileNotFoundError ("Input image not found: " +:+ path))
  | Some f =>
      if len (gradient_or_default gradient) <? 2 then Raise InvalidParameterError
      else
        match f with
        | OtherFile => Raise UnidentifiedImageError
        | ImageFile img =>
            if (bm_width img =? 0) || (bm_height img =? 0)
            then Raise InvalidImageError
            else render img width y_scale
                   (effective_gradient invert (gradient_or_default gradient))
        end
  end.
Proof.
  run_program. unfold render, effective_gradient, rbind.
  destruct (fs w !! path) as [[img|]|] eqn:Hf; simpl; [| |reflexivity].
  - destruct (len (gradient_or_default gradient) <? 2); simpl; [reflexivity|].
    rewrite Hf.
    destruct ((bm_width img =? 0) || (bm_height img =? 0)); simpl; [reflexivity|].
    destruct (new_height _ _ _ _); simpl; [|reflexivity].
    destruct (resize _ _ _); simpl; [|reflexivity].
    destruct (map_pixels _ _); simpl; [|reflexivity].
    destruct (make_lines _ _); reflexivity.
  - destruct (len (gradient_or_default gradient) <? 2); simpl; [reflexivity|].
    rewrite Hf. reflexivity.
Qed.

(** ** Rows *)

Lemma range_rows width n :
  1 <= width -> 0 <= n ->
  range 0 (width * n) width = Ok ((fun k => 0 + k * width) <$> seqZ 0 n).
Proof.
  intros Hw Hn. unfold range.
  replace (width =? 0) with false by (symmetry; apply Z.eqb_neq; lia).
  replace (0 <? width) with true by (symmetry; apply Z.ltb_lt; lia).
  replace ((width * n - 0 + width - 1) / width) with n; [reflexivity|].
  apply Z.div_unique with (r := width - 1); lia.
Qed.

Lemma In_take_drop {A} (l : list A) (a b : nat) (x : A) :
  In x (take b (drop a l)) -> In x l.
Proof.
  intros Hin.
  rewrite <- (firstn_skipn a l). apply in_or_app. right.
  rewrite <- (firstn_skipn b (skipn a l)). apply in_or_app. left. exact Hin.
Qed.

Lemma slice_row {A} (l : list A) (k width : Z) :
  0 <= k -> 1 <= width -> (k + 1) * width <= Z.of_nat (length l) ->
  slice l (0 + k * width) (0 + k * width + width)
  = take (Z.to_nat width) (drop (Z.to_nat (k * width)) l)
  /\ Z.of_nat (length (slice l (0 + k * width) (0 + k * width + width))) = width.
Proof.
  intros Hk Hw Hlen. unfold slice, slice_bound.
  replace (0 + k * width <? 0) with false by (symmetry; apply Z.ltb_ge; nia).
  replace (0 + k * width + width <? 0) with false by (symmetry; apply Z.ltb_ge; nia).
  rewrite !Z.min_l by nia.
  replace (0 + k * width + width - (0 + k * width)) with width by lia.
  rewrite Z.add_0_l. split; [reflexivity|].
  rewrite length_take, length_drop. nia.
Qed.

Lemma make_lines_ok chars width n :
  1 <= width -> 0 <= n -> Z.of_nat (length chars) = width * n ->
  exists lines,
    make_lines chars width = Ok lines /\
    Z.of_nat (length lines) = n /\
    List.Forall (fun l => len l = width /\
                          forall c, In c (list_ascii_of_string l) -> In c chars)
                lines.
Proof.
  intros Hw Hn Hlen. unfold make_lines. rewrite Hlen, range_rows by assumption.
  simpl. eexists. split; [reflexivity|]. split.
  - rewrite !length_fmap, length_seqZ. lia.
  - apply List.Forall_forall. intros l Hl.
    apply list_elem_of_In, list_elem_of_fmap in Hl as (i & -> & Hi).
    apply list_elem_of_fmap in Hi as (k & -> & Hk).
    apply elem_of_seqZ in Hk.
    destruct (slice_row chars k width) as [Heq Hsz]; [lia | lia | nia |].
    split.
    + unfold len, join_chars. rewrite length_string_of_list_ascii. exact Hsz.
    + intros c. unfold join_chars.
      rewrite list_ascii_of_string_of_list_ascii, Heq. apply In_take_drop.
Qed.

(** ** Splitting the output on newlines *)

Lemma newline_free_cons c s :
  newline_free (String c s) <-> c <> newline /\ newline_free s.
Proof. unfold newline_free; simpl. intuition. Qed.

Lemma split_lines_newline_free s : newline_free s -> split_lines s = [s].
Proof.
  induction s as [|c s IH]; intros Hs; simpl; [reflexivity|].
  apply newline_free_cons in Hs as [Hc Hs].
  apply Ascii.eqb_neq in Hc. rewrite Hc, IH by assumption. reflexivity.
Qed.

Lemma split_lines_app s t :
  newline_free s -> split_lines (s +:+ String newline t) = s :: split_lines t.
Proof.
  induction s as [|c s IH]; intros Hs; simpl.
  - reflexivity.
  - apply newline_free_cons in Hs as [Hc Hs].
    apply Ascii.eqb_neq in Hc. rewrite Hc, IH by assumption. reflexivity.
Qed.

Lemma split_lines_join lines :
  lines <> [] -> List.Forall newline_free lines ->
  split_lines (join (String newline EmptyString) lines) = lines.
Proof.
  unfold join. induction lines as [|l lines IH]; intros Hne Hall; [congruence|].
  inversion Hall as [|? ? Hl Hrest]; subst.
  destruct lines as [|l' lines]; simpl.
  - apply split_lines_newline_free, Hl.
  - change (split_lines (l +:+ String newline (String.concat (String newline EmptyString) (l' :: lines)))
            = l :: l' :: lines).
    rewrite split_lines_app by assumption. f_equal. apply IH; [discriminate | assumption].
Qed.

Lemma ends_with_newline_free s : newline_free s -> ends_with_newline s = false.
Proof.
  induction s as [|c s IH]; intros Hs; [reflexivity|].
  apply newline_free_cons in Hs as [Hc Hs]. simpl.
  destruct s; [apply Ascii.eqb_neq, Hc | apply IH, Hs].
Qed.

Lemma ends_with_newline_app s t :
  t <> EmptyString -> ends_with_newline (s +:+ t) = ends_with_newline t.
Proof.
  intros Ht. induction s as [|c s IH]; [reflexivity|]. simpl.
  destruct (s +:+ t) eqn:Hst; [|exact IH].
  destruct s; [exfalso; exact (Ht Hst) | inversion Hst].
Qed.

Lemma ends_with_newline_cons c s :
  s <> EmptyString -> ends_with_newline (String c s) = ends_with_newline s.
Proof. destruct s; [congruence | reflexivity]. Qed.

Lemma concat_nonempty sep l lines :
  l <> EmptyString -> String.concat sep (l :: lines) <> EmptyString.
Proof.
  intros Hl. destruct l as [|c l]; [congruence|].
  destruct lines; intros Heq; inversion Heq.
Qed.

Lemma ends_with_newline_join lines :
  List.Forall (fun l => l <> EmptyString /\ newline_free l) lines ->
  ends_with_newline (join (String newline EmptyString) lines) = false.
Proof.
  unfold join. induction 1 as [|l lines [Hne Hl] Hrest IH]; [reflexivity|].
  destruct lines as [|l' lines].
  - apply ends_with_newline_free, Hl.
  - assert (Hrest' : String.concat (String newline EmptyString) (l' :: lines)
                     <> EmptyString).
    { inversion Hrest as [|? ? [Hne' _] _]; subst. apply concat_nonempty, Hne'. }
    change (ends_with_newline
              (l +:+ String newline
                       (String.concat (String newline EmptyString) (l' :: lines)))
            = false).
    rewrite ends_with_newline_app by discriminate.
    rewrite ends_with_newline_cons by assumption. exact IH.
Qed.

(** ** Doubles *)

Lemma binary_round_aux_signed s m e l :
  SFsigned s (binary_round_aux prec emax s m e l).
Proof.
  unfold binary_round_aux.
  destruct (shr_fexp prec emax m e l) as [mrs e'].
  destruct (shr_fexp prec emax _ e' loc_Exact) as [mrs' e''].
  destruct (shr_m mrs'); simpl; [reflexivity | | exact I].
  destruct (e'' <=? emax - prec); reflexivity.
Qed.









(** ** Python's arithmetic on line 88 and IEEE 754 arithmetic *)

Lemma digits2_pos_size p : digits2_pos p = Pos.size p.
Proof. induction p; simpl; congruence. Qed.

Lemma digits2_pos_le p k :
  0 <= k -> Z.pos p < 2 ^ k -> Z.pos (digits2_pos p) <= k.
Proof.
  intros Hk Hp. rewrite digits2_pos_size.
  destruct (Z_le_gt_dec (Z.pos (Pos.size p)) k) as [|Hgt]; [assumption|].
  pose proof (Pos.size_le p) as Hle.
  apply Pos2Z.pos_le_pos in Hle. rewrite Pos2Z.inj_pow in Hle.
  assert (2 ^ (k + 1) <= 2 ^ Z.pos (Pos.size p))
    by (apply Z.pow_le_mono_r; lia).
  rewrite Z.pow_add_r in H by lia. change (Z.pos p~0) with (2 * Z.pos p) in Hle.
  lia.
Qed.

Lemma iter_xO_value p k : Z.pos (Pos.iter xO p k) = Z.pos p * 2 ^ Z.pos k.
Proof.
  induction k as [|k IH] using Pos.peano_ind.
  - simpl. lia.
  - rewrite Pos.iter_succ, Pos2Z.inj_succ, Z.pow_succ_r by lia.
    change (Z.pos (Pos.iter xO p k)~0) with (2 * Z.pos (Pos.iter xO p k)).
    rewrite IH. lia.
Qed.

Lemma iter_xO_digits p k :
  Z.pos (digits2_pos (Pos.iter xO p k)) = Z.pos (digits2_pos p) + Z.pos k.
Proof.
  induction k as [|k IH] using Pos.peano_ind.
  - simpl. lia.
  - rewrite Pos.iter_succ. simpl digits2_pos. rewrite Pos2Z.inj_succ, IH. lia.
Qed.

Lemma binary_round_aux_exact s m e :
  Z.pos (digits2_pos m) = 53 -> -1074 <= e <= 971 ->
  binary_round_aux 53 1024 s (Z.pos m) e loc_Exact = S754_finite s m e.
Proof.
  intros Hd He.
  assert (Hshift : shr_fexp 53 1024 (Z.pos m) e loc_Exact
                   = ({| shr_m := Z.pos m; shr_r := false; shr_s := false |}, e)).
  { unfold shr_fexp, fexp, emin, Zdigits2. rewrite Hd.
    replace (Z.max (53 + e - 53) (3 - 1024 - 53) - e) with 0 by lia.
    reflexivity. }
  unfold binary_round_aux. rewrite Hshift. simpl. rewrite Hshift. simpl.
  replace (e <=? 1024 - 53) with true by (symmetry; apply Z.leb_le; lia).
  reflexivity.
Qed.

(** The double of a positive integer below [2^53]: the integer itself,
    shifted to 53 bits. *)
Lemma normalize_small a :
  0 < a < 2 ^ 53 ->
  exists m e,
    binary_normalize 53 1024 a 0 false = S754_finite false m e /\
    Z.pos (digits2_pos m) = 53 /\ -52 <= e <= 0 /\
    Z.pos m = a * 2 ^ (- e) /\ Zdigits2 a = 53 + e.
Proof.
  intros [Ha0 Ha]. destruct a as [|p|p]; try lia.
  pose proof (digits2_pos_le p 53 ltac:(lia) Ha) as Hd.
  assert (Hd1 : 1 <= Z.pos (digits2_pos p)) by lia.
  unfold binary_normalize, binary_round, shl_align, fexp, emin.
  replace (Z.max (Z.pos (digits2_pos p) + 0 - 53) (3 - 1024 - 53) - 0)
    with (Z.pos (digits2_pos p) - 53) by lia.
  destruct (Z.pos (digits2_pos p) - 53) as [|d|d] eqn:Hdiff; try lia.
  - exists p, 0. rewrite binary_round_aux_exact by lia.
    repeat split; simpl; lia.
  - replace (Z.max (Z.pos (digits2_pos p) + 0 - 53) (3 - 1024 - 53))
      with (Z.neg d) by lia.
    exists (Pos.iter xO p d), (Z.neg d).
    rewrite binary_round_aux_exact;
      [|rewrite iter_xO_digits; lia | lia].
    repeat split; try lia.
    + rewrite iter_xO_digits. lia.
    + rewrite iter_xO_value. reflexivity.
    + simpl. lia.
Qed.

Lemma new_location_compare n k :
  0 < n -> 0 <= k ->
  new_location n k = if k =? 0 then loc_Exact else loc_Inexact (2 * k ?= n).
Proof.
  intros Hn Hk. unfold new_location, new_location_even, new_location_odd.
  destruct (Z.even n) eqn:Heven; [reflexivity|].
  destruct (k =? 0); [reflexivity|]. f_equal.
  assert (Hodd : n mod 2 = 1).
  { rewrite Zmod_odd, <- Z.negb_even, Heven. reflexivity. }
  pose proof (Z.div_mod n 2 ltac:(lia)) as Hn2.
  destruct (2 * k + 1 ?= n) eqn:Hc1; destruct (2 * k ?= n) eqn:Hc2;
    try reflexivity;
    rewrite ?Z.compare_eq_iff, ?Z.compare_lt_iff, ?Z.compare_gt_iff in *; lia.
Qed.

Lemma new_location_scale n k c :
  0 < n -> 0 <= k -> 0 < c ->
  new_location (n * c) (k * c) = new_location n k.
Proof.
  intros Hn Hk Hc. rewrite !new_location_compare by nia.
  destruct (Z.eqb_spec k 0) as [->|Hne].
  - reflexivity.
  - replace (k * c =? 0) with false by (symmetry; apply Z.eqb_neq; nia).
    f_equal.
    destruct (Z.compare_spec (2 * (k * c)) (n * c));
      destruct (Z.compare_spec (2 * k) n); try reflexivity; nia.
Qed.

(** Dividing two integers below [2^53] and dividing their doubles pass
    the same quotient, exponent and location to the rounding. *)
Lemma div_core_normalized a b ma ea mb eb :
  0 < a -> 0 < b ->
  Z.pos (digits2_pos ma) = 53 -> -52 <= ea <= 0 ->
  Z.pos ma = a * 2 ^ (- ea) -> Zdigits2 a = 53 + ea ->
  Z.pos (digits2_pos mb) = 53 -> -52 <= eb <= 0 ->
  Z.pos mb = b * 2 ^ (- eb) -> Zdigits2 b = 53 + eb ->
  SFdiv_core_binary 53 1024 (Z.pos ma) ea (Z.pos mb) eb
  = SFdiv_core_binary 53 1024 a 0 b 0.
Proof.
  intros Ha Hb Hda Hea Hma Hdiga Hdb Heb Hmb Hdigb.
  unfold SFdiv_core_binary, fexp, emin.
  change (Zdigits2 (Z.pos ma)) with (Z.pos (digits2_pos ma)).
  change (Zdigits2 (Z.pos mb)) with (Z.pos (digits2_pos mb)).
  rewrite Hda, Hdb, Hdiga, Hdigb.
  replace (Z.min (Z.max (53 + ea - (53 + eb) - 53) (3 - 1024 - 53)) (ea - eb))
    with (ea - eb - 53) by lia.
  replace (Z.min (Z.max (53 + ea + 0 - (53 + eb + 0) - 53) (3 - 1024 - 53)) (0 - 0))
    with (ea - eb - 53) by lia.
  replace (ea - eb - (ea - eb - 53)) with 53 by lia.
  replace (0 - 0 - (ea - eb - 53)) with (53 - ea + eb) by lia.
  destruct (53 - ea + eb) as [|s|s] eqn:Hs; try lia.
  rewrite <- Hs. clear Hs s.
  rewrite !Z.shiftl_mul_pow2 by lia.
  set (c := 2 ^ (- eb)).
  assert (Hc : 0 < c) by (apply Z.pow_pos_nonneg; lia).
  assert (Hnum : Z.pos ma * 2 ^ 53 = a * 2 ^ (53 - ea + eb) * c).
  { rewrite Hma. unfold c. rewrite <- !Z.mul_assoc. f_equal.
    rewrite <- !Z.pow_add_r by lia. f_equal. lia. }
  change IntDef.Z.div_eucl with Z.div_eucl.
  rewrite Hnum, Hmb. fold c.
  set (n := a * 2 ^ (53 - ea + eb)).
  assert (Hn : 0 <= n) by (unfold n; apply Z.mul_nonneg_nonneg; [lia|apply Z.pow_nonneg; lia]).
  pose proof (Z.div_eucl_eq (n * c) (b * c) ltac:(nia)) as Heq1.
  pose proof (Z.mod_pos_bound (n * c) (b * c) ltac:(nia)) as Hr1.
  pose proof (Z.div_eucl_eq n b ltac:(lia)) as Heq2.
  pose proof (Z.mod_pos_bound n b ltac:(lia)) as Hr2.
  unfold Z.modulo in Hr1, Hr2.
  destruct (Z.div_eucl (n * c) (b * c)) as [q1 r1].
  destruct (Z.div_eucl n b) as [q2 r2].
  assert (Hq : q1 = q2 /\ r1 = r2 * c).
  { apply (Z.div_mod_unique (b * c)); [left; lia | left; nia | nia]. }
  destruct Hq as [-> ->].
  rewrite new_location_scale by lia. reflexivity.
Qed.

Lemma iter_pos_invariant {A} (P : A -> Prop) (f : A -> A) (n : positive) (x : A) :
  (forall y, P y -> P (f y)) -> P x -> P (SpecFloat.iter_pos f n x).
Proof.
  intros Hf. revert x. induction n as [n IH|n IH|]; intros x Hx; simpl; auto.
Qed.

Lemma shr_1_bound (B : Z) (mrs : shr_record) :
  0 <= shr_m mrs <= B -> 0 <= shr_m (shr_1 mrs) <= B.
Proof.
  destruct mrs as [m r s]. simpl. destruct m as [|[p|p|]|p]; simpl; lia.
Qed.

Lemma shr_fexp_bound m e l :
  0 <= m ->
  0 <= shr_m (fst (shr_fexp 53 1024 m e l)) <= m /\
  snd (shr_fexp 53 1024 m e l)
  = e + Z.max 0 (Z.max (Zdigits2 m + e - 53) (-1074) - e).
Proof.
  intros Hm. unfold shr_fexp, shr, fexp, emin.
  change (3 - 1024 - 53) with (-1074).
  assert (Hrec : shr_m (shr_record_of_loc m l) = m) by (destruct l as [|[]]; reflexivity).
  destruct (Z.max (Zdigits2 m + e - 53) (-1074) - e) as [|p|p] eqn:Hn; simpl.
  - rewrite Hrec. lia.
  - split; [|lia].
    apply (iter_pos_invariant (fun mrs => 0 <= shr_m mrs <= m));
      [apply shr_1_bound | rewrite Hrec; lia].
  - rewrite Hrec. lia.
Qed.

Lemma Zdigits2_le m k : 0 <= k -> 0 <= m < 2 ^ k -> 0 <= Zdigits2 m <= k.
Proof.
  intros Hk [Hm0 Hm]. destruct m as [|p|p]; simpl; try lia.
  pose proof (digits2_pos_le p k Hk Hm). lia.
Qed.

(** A quotient of moderate size and exponent is not rounded to infinity. *)
Lemma binary_round_aux_not_infinite s m e l :
  0 <= m < 2 ^ 159 -> -1074 <= e <= 0 ->
  forall s', binary_round_aux 53 1024 s m e l <> S754_infinity s'.
Proof.
  intros Hm He s'. unfold binary_round_aux.
  pose proof (shr_fexp_bound m e l ltac:(lia)) as [Hm1 He1].
  pose proof (Zdigits2_le m 159 ltac:(lia) Hm) as Hd1.
  destruct (shr_fexp 53 1024 m e l) as [mrs1 e1]. simpl in Hm1, He1.
  set (m2 := round_nearest_even (shr_m mrs1) (loc_of_shr_record mrs1)).
  assert (Hm2 : 0 <= m2 < 2 ^ 160).
  { assert (shr_m mrs1 <= m2 <= shr_m mrs1 + 1).
    { unfold m2, round_nearest_even.
      destruct (loc_of_shr_record mrs1) as [|[]]; try lia.
      destruct (Z.even (shr_m mrs1)); lia. }
    change (2 ^ 160) with (2 * 2 ^ 159). lia. }
  pose proof (shr_fexp_bound m2 e1 loc_Exact ltac:(lia)) as [_ He2].
  pose proof (Zdigits2_le m2 160 ltac:(lia) Hm2) as Hd2.
  destruct (shr_fexp 53 1024 m2 e1 loc_Exact) as [mrs2 e2]. simpl in He2.
  destruct (shr_m mrs2); try discriminate.
  replace (e2 <=? 1024 - 53) with true by (symmetry; apply Z.leb_le; lia).
  discriminate.
Qed.

Lemma Zdigits2_bounds m :
  0 < m -> 2 ^ (Zdigits2 m - 1) <= m < 2 ^ Zdigits2 m.
Proof.
  intros Hm. destruct m as [|p|p]; try lia. simpl Zdigits2.
  rewrite digits2_pos_size.
  pose proof (Pos.size_gt p) as Hgt. pose proof (Pos.size_le p) as Hle.
  apply Pos2Z.pos_lt_pos in Hgt. apply Pos2Z.pos_le_pos in Hle.
  rewrite Pos2Z.inj_pow in Hgt, Hle.
  change (Z.pos p~0) with (2 * Z.pos p) in Hle.
  replace (Z.pos (Pos.size p)) with (Z.succ (Z.pos (Pos.size p) - 1)) in Hle by lia.
  rewrite Z.pow_succ_r in Hle by lia. lia.
Qed.

Lemma div_core_small a b :
  0 < a < 2 ^ 53 -> 0 < b < 2 ^ 53 ->
  exists q e l,
    SFdiv_core_binary 53 1024 a 0 b 0 = (q, e, l) /\
    0 < q < 2 ^ 159 /\ -106 <= e <= 0.
Proof.
  intros Ha Hb. unfold SFdiv_core_binary, fexp, emin.
  pose proof (Zdigits2_le a 53 ltac:(lia) ltac:(lia)) as Hda.
  pose proof (Zdigits2_le b 53 ltac:(lia) ltac:(lia)) as Hdb.
  pose proof (Zdigits2_bounds a ltac:(lia)) as Hba.
  pose proof (Zdigits2_bounds b ltac:(lia)) as Hbb.
  assert (Hda1 : 1 <= Zdigits2 a).
  { destruct a as [|p|p]; try lia. simpl. lia. }
  assert (Hdb1 : 1 <= Zdigits2 b).
  { destruct b as [|p|p]; try lia. simpl. lia. }
  replace (Z.min (Z.max (Zdigits2 a + 0 - (Zdigits2 b + 0) - 53) (3 - 1024 - 53))
                 (0 - 0))
    with (Zdigits2 a - Zdigits2 b - 53) by lia.
  set (e := Zdigits2 a - Zdigits2 b - 53).
  assert (He : -106 <= e <= -1) by (unfold e; lia).
  destruct (0 - 0 - e) as [|p|p] eqn:Hs; try lia. rewrite <- Hs.
  rewrite Z.shiftl_mul_pow2 by lia.
  set (n := a * 2 ^ (0 - 0 - e)).
  assert (Hpow : 2 ^ (0 - 0 - e) <= 2 ^ 106) by (apply Z.pow_le_mono_r; lia).
  assert (Hpow0 : 0 < 2 ^ (0 - 0 - e)) by (apply Z.pow_pos_nonneg; lia).
  assert (Hn : b <= n < 2 ^ 159).
  { split.
    - apply Z.le_trans with (2 ^ Zdigits2 b); [lia|].
      apply Z.le_trans with (2 ^ (Zdigits2 a - 1) * 2 ^ (0 - 0 - e)).
      + rewrite <- Z.pow_add_r by lia. apply Z.pow_le_mono_r; unfold e; lia.
      + unfold n. apply Z.mul_le_mono_nonneg_r; lia.
    - unfold n. change (2 ^ 159) with (2 ^ 53 * 2 ^ 106). nia. }
  change IntDef.Z.div_eucl with Z.div_eucl.
  pose proof (Z.div_eucl_eq n b ltac:(lia)) as Heq.
  pose proof (Z.mod_pos_bound n b ltac:(lia)) as Hr. unfold Z.modulo in Hr.
  destruct (Z.div_eucl n b) as [q r].
  exists q, e, (new_location b r). split; [reflexivity|]. split; [nia | lia].
Qed.

(** Python's [a / b] on two integers below [2^53] is the IEEE quotient of
    the two doubles. *)
Lemma int_truediv_double a b :
  0 < a < 2 ^ 53 -> 0 < b < 2 ^ 53 ->
  int_truediv a b = Ok (SFdiv 53 1024 (double a) (double b)).
Proof.
  intros Ha Hb. unfold double.
  destruct (normalize_small a Ha) as (ma & ea & -> & Hda & Hea & Hma & Hdiga).
  destruct (normalize_small b Hb) as (mb & eb & -> & Hdb & Heb & Hmb & Hdigb).
  unfold SFdiv.
  rewrite (div_core_normalized a b) by (assumption || lia).
  destruct (div_core_small a b Ha Hb) as (q & e & l & Hcore & Hq & He).
  unfold int_truediv. destruct a as [|pa|pa]; try lia. destruct b as [|pb|pb]; try lia.
  change (SFdiv_core_binary prec emax (Z.abs (Z.pos pa)) 0 (Z.abs (Z.pos pb)) 0)
    with (SFdiv_core_binary 53 1024 (Z.pos pa) 0 (Z.pos pb) 0).
  rewrite Hcore.
  change (binary_round_aux prec emax (xorb (Z.pos pa <? 0) (Z.pos pb <? 0)) q e l)
    with (binary_round_aux 53 1024 (xorb false false) q e l).
  pose proof (binary_round_aux_not_infinite (xorb false false) q e l
                ltac:(lia) ltac:(lia)) as Hfin.
  destruct (binary_round_aux 53 1024 (xorb false false) q e l);
    try reflexivity. exfalso. eapply Hfin. reflexivity.
Qed.

Lemma double_finite a :
  0 < a < 2 ^ 53 -> exists m e, double a = S754_finite false m e.
Proof.
  intros Ha. destruct (normalize_small a Ha) as (m & e & Heq & _). eauto.
Qed.

(** What Python computes on line 88, before [int], is the IEEE product. *)
Lemma scaled_height_spec orig_h width orig_w y_scale :
  0 < orig_h < 2 ^ 53 -> 0 < width < 2 ^ 53 -> 0 < orig_w < 2 ^ 53 ->
  scaled_height orig_h width orig_w y_scale
  = Ok (spec_product orig_h width orig_w y_scale).
Proof.
  intros Hh Hw How. unfold scaled_height, spec_product.
  rewrite (int_truediv_double width orig_w Hw How). simpl.
  destruct (double_finite orig_h Hh) as (mh & eh & Hdh).
  unfold float_of_int.
  change (binary_normalize prec emax orig_h 0 false) with (double orig_h).
  rewrite Hdh. reflexivity.
Qed.

Lemma shr_1_value (mrs : shr_record) :
  0 <= shr_m mrs -> shr_m (shr_1 mrs) = shr_m mrs / 2.
Proof.
  destruct mrs as [m r s]. simpl. intros Hm.
  destruct m as [|[p|p|]|p]; cbn [shr_m]; try lia; try reflexivity.
  - apply Z.div_unique with (r := 1); lia.
  - apply Z.div_unique with (r := 0); lia.
Qed.

Lemma shr_iter_value (p : positive) (mrs : shr_record) :
  0 <= shr_m mrs ->
  shr_m (SpecFloat.iter_pos shr_1 p mrs) = shr_m mrs / 2 ^ Z.pos p.
Proof.
  revert mrs. induction p as [p IH|p IH|]; intros mrs Hm; simpl SpecFloat.iter_pos.
  - assert (Hpow : 0 < 2 ^ Z.pos p) by (apply Z.pow_pos_nonneg; lia).
    pose proof (shr_1_bound (shr_m mrs) mrs ltac:(lia)) as H1.
    assert (H2 : 0 <= shr_m (SpecFloat.iter_pos shr_1 p (shr_1 mrs))).
    { rewrite IH by lia. apply Z.div_pos; lia. }
    rewrite IH, IH, shr_1_value by lia.
    rewrite !Z.div_div by lia.
    f_equal. change (Z.pos p~1) with (2 * Z.pos p + 1).
    replace (2 * Z.pos p + 1) with (1 + (Z.pos p + Z.pos p)) by lia.
    rewrite !Z.pow_add_r by lia. lia.
  - assert (Hpow : 0 < 2 ^ Z.pos p) by (apply Z.pow_pos_nonneg; lia).
    assert (H2 : 0 <= shr_m (SpecFloat.iter_pos shr_1 p mrs)).
    { rewrite IH by lia. apply Z.div_pos; lia. }
    rewrite IH, IH by lia.
    rewrite Z.div_div by lia.
    f_equal. change (Z.pos p~0) with (2 * Z.pos p).
    replace (2 * Z.pos p) with (Z.pos p + Z.pos p) by lia.
    rewrite Z.pow_add_r by lia. reflexivity.
  - rewrite shr_1_value by assumption. reflexivity.
Qed.

Lemma shr_fexp_pos m e l :
  0 < m -> -1074 <= e ->
  0 < shr_m (fst (shr_fexp 53 1024 m e l)) /\ e <= snd (shr_fexp 53 1024 m e l).
Proof.
  intros Hm He. pose proof (shr_fexp_bound m e l ltac:(lia)) as [_ Hsnd].
  split; [|lia].
  unfold shr_fexp, shr, fexp, emin. change (3 - 1024 - 53) with (-1074).
  assert (Hrec : shr_m (shr_record_of_loc m l) = m) by (destruct l as [|[]]; reflexivity).
  destruct (Z.max (Zdigits2 m + e - 53) (-1074) - e) as [|p|p] eqn:Hn; simpl;
    try (rewrite Hrec; lia).
  rewrite shr_iter_value by (rewrite Hrec; lia). rewrite Hrec.
  pose proof (Zdigits2_bounds m Hm) as [Hlow _].
  assert (Hp : Z.pos p = Zdigits2 m - 53) by lia.
  assert (2 ^ Z.pos p <= m).
  { apply Z.le_trans with (2 ^ (Zdigits2 m - 1)); [|exact Hlow].
    apply Z.pow_le_mono_r; lia. }
  assert (0 < 2 ^ Z.pos p) by (apply Z.pow_pos_nonneg; lia).
  apply Z.lt_le_trans with 1; [lia|].
  apply Z.div_le_lower_bound; lia.
Qed.

Lemma round_nearest_even_ge m l : m <= round_nearest_even m l.
Proof.
  unfold round_nearest_even. destruct l as [|[]]; try lia.
  destruct (Z.even m); lia.
Qed.

(** Rounding a positive mantissa at an exponent no lower than the least
    one gives a positive double, or infinity, with an exponent no lower. *)
Lemma binary_round_aux_positive s m e l :
  0 < m -> -1074 <= e ->
  (exists m' e', binary_round_aux 53 1024 s m e l = S754_finite s m' e' /\ e <= e')
  \/ binary_round_aux 53 1024 s m e l = S754_infinity s.
Proof.
  intros Hm He. unfold binary_round_aux.
  pose proof (shr_fexp_pos m e l Hm He) as [Hm1 He1].
  destruct (shr_fexp 53 1024 m e l) as [mrs1 e1]. simpl in Hm1, He1.
  pose proof (round_nearest_even_ge (shr_m mrs1) (loc_of_shr_record mrs1)) as Hrne.
  pose proof (shr_fexp_pos (round_nearest_even (shr_m mrs1) (loc_of_shr_record mrs1))
                e1 loc_Exact ltac:(lia) ltac:(lia)) as [Hm2 He2].
  destruct (shr_fexp 53 1024 _ e1 loc_Exact) as [mrs2 e2]. simpl in Hm2, He2.
  destruct (shr_m mrs2) as [|p|p]; try lia.
  destruct (e2 <=? 1024 - 53); [left | right; reflexivity].
  exists p, e2. split; [reflexivity | lia].
Qed.

(** Rounding a mantissa that is not negative never gives a NaN. *)
Lemma binary_round_aux_not_nan s m e l :
  0 <= m -> binary_round_aux 53 1024 s m e l <> S754_nan.
Proof.
  intros Hm. unfold binary_round_aux.
  pose proof (shr_fexp_bound m e l Hm) as [Hm1 _].
  destruct (shr_fexp 53 1024 m e l) as [mrs1 e1]. simpl in Hm1.
  pose proof (round_nearest_even_ge (shr_m mrs1) (loc_of_shr_record mrs1)) as Hrne.
  pose proof (shr_fexp_bound (round_nearest_even (shr_m mrs1) (loc_of_shr_record mrs1))
                e1 loc_Exact ltac:(lia)) as [Hm2 _].
  destruct (shr_fexp 53 1024 _ e1 loc_Exact) as [mrs2 e2]. simpl in Hm2.
  destruct (shr_m mrs2) as [|p|p]; try lia; try discriminate.
  destruct (e2 <=? 1024 - 53); discriminate.
Qed.

Lemma float_pos_cases y :
  float_pos y -> (exists m e, y = S754_finite false m e) \/ y = S754_infinity false.
Proof.
  unfold float_pos, SFltb.
  destruct y as [s|[]| |[] m e]; simpl; try discriminate; eauto.
Qed.

Lemma ratio_positive a b :
  0 < a < 2 ^ 53 -> 0 < b < 2 ^ 53 ->
  exists m e, SFdiv 53 1024 (double a) (double b) = S754_finite false m e /\
              -106 <= e.
Proof.
  intros Ha Hb. unfold double.
  destruct (normalize_small a Ha) as (ma & ea & -> & Hda & Hea & Hma & Hdiga).
  destruct (normalize_small b Hb) as (mb & eb & -> & Hdb & Heb & Hmb & Hdigb).
  unfold SFdiv.
  rewrite (div_core_normalized a b) by (assumption || lia).
  destruct (div_core_small a b Ha Hb) as (q & e & l & -> & Hq & He).
  pose proof (binary_round_aux_not_infinite (xorb false false) q e l
                ltac:(lia) ltac:(lia)) as Hfin.
  destruct (binary_round_aux_positive (xorb false false) q e l ltac:(lia) ltac:(lia))
    as [(mr & er & Hr & Her) | Hinf]; [|exfalso; eapply Hfin, Hinf].
  exists mr, er. split; [exact Hr | lia].
Qed.

Lemma SFmul_positive m1 e1 m2 e2 :
  -1074 <= e1 + e2 ->
  (exists m e, SFmul 53 1024 (S754_finite false m1 e1) (S754_finite false m2 e2)
               = S754_finite false m e) \/
  SFmul 53 1024 (S754_finite false m1 e1) (S754_finite false m2 e2)
  = S754_infinity false.
Proof.
  intros He. unfold SFmul.
  destruct (binary_round_aux_positive (xorb false false) (Z.pos (m1 * m2)) (e1 + e2)
              loc_Exact ltac:(lia) He) as [(m & e & Hm & _) | Hinf].
  - left. exists m, e. exact Hm.
  - right. exact Hinf.
Qed.

Lemma SFmul_nonneg m1 e1 m2 e2 :
  (exists q, SFvalue (SFmul 53 1024 (S754_finite false m1 e1) (S754_finite false m2 e2))
             = Some q) \/
  SFmul 53 1024 (S754_finite false m1 e1) (S754_finite false m2 e2)
  = S754_infinity false.
Proof.
  unfold SFmul.
  pose proof (binary_round_aux_not_nan (xorb false false) (Z.pos (m1 * m2)) (e1 + e2)
                loc_Exact ltac:(lia)) as Hnan.
  pose proof (binary_round_aux_signed (xorb false false) (Z.pos (m1 * m2)) (e1 + e2)
                loc_Exact) as Hsign.
  change prec with 53 in Hsign. change emax with 1024 in Hsign.
  destruct (binary_round_aux 53 1024 (xorb false false) (Z.pos (m1 * m2)) (e1 + e2)
              loc_Exact) as [s|s| |s m e]; simpl in Hsign; subst; try congruence.
  - left. eexists. reflexivity.
  - right. reflexivity.
  - left. eexists. reflexivity.
Qed.

(** For positive arguments the IEEE product is a finite double that is not
    negative, or plus infinity. *)
Lemma spec_product_positive orig_h width orig_w y_scale :
  0 < orig_h < 2 ^ 53 -> 0 < width < 2 ^ 53 -> 0 < orig_w < 2 ^ 53 ->
  float_pos y_scale ->
  (exists q, SFvalue (spec_product orig_h width orig_w y_scale) = Some q) \/
  spec_product orig_h width orig_w y_scale = S754_infinity false.
Proof.
  intros Hh Hw How Hy. unfold spec_product.
  destruct (normalize_small orig_h Hh) as (mh & eh & Hdh & _ & Heh & _).
  fold (double orig_h) in Hdh. rewrite Hdh.
  destruct (ratio_positive width orig_w Hw How) as (mr & er & -> & Her).
  destruct (SFmul_positive mh eh mr er ltac:(lia)) as [(mx & ex & ->) | ->];
    destruct (float_pos_cases y_scale Hy) as [(my & ey & ->) | ->].
  - apply SFmul_nonneg.
  - right. reflexivity.
  - right. reflexivity.
  - right. reflexivity.
Qed.

Lemma Qfloor_div_pos z d : Qfloor (inject_Z z / inject_Z (Z.pos d)) = z / Z.pos d.
Proof.
  unfold Qfloor, Qdiv, Qmult, Qinv, inject_Z; simpl.
  rewrite Z.mul_1_r. reflexivity.
Qed.

(** The floor of [z * 2^e], taken in the rationals, is a shift of [z]. *)
Lemma Qfloor_scaled z e :
  Qfloor (inject_Z z * (2 # 1) ^ e) = Z.shiftl z e.
Proof.
  destruct (Z_le_gt_dec 0 e) as [He | He].
  - rewrite Z.shiftl_mul_pow2 by assumption.
    change (2 # 1)%Q with (inject_Z 2).
    rewrite <- Zpower_Qpower by assumption.
    rewrite <- inject_Z_mult. apply Qfloor_Z.
  - rewrite Z.shiftl_div_pow2 by lia.
    assert (Hpow : 0 < 2 ^ (- e)) by (apply Z.pow_pos_nonneg; lia).
    destruct (2 ^ (- e)) as [|d|d] eqn:Hd; try lia.
    rewrite <- Qfloor_div_pos. apply Qfloor_comp. unfold Qdiv.
    apply Qmult_comp; [reflexivity|].
    replace e with (- - e) at 1 by lia. rewrite Qpower_opp.
    change (2 # 1)%Q with (inject_Z 2).
    rewrite <- Zpower_Qpower by lia. rewrite Hd. reflexivity.
Qed.

Lemma int_of_float_spec v :
  match SFvalue v with
  | Some q => exists i, int_of_float v = Ok i /\ Z.max 1 i = Z.max 1 (Qfloor q)
  | None => is_ok (int_of_float v) = false
  end.
Proof.
  destruct v as [s|s| |s m e]; unfold SFvalue, int_of_float; try reflexivity.
  - exists 0. split; reflexivity.
  - eexists. split; [reflexivity|]. rewrite Qfloor_scaled.
    destruct s; [|reflexivity]. unfold cond_Zopp.
    assert (0 <= Z.shiftl (Z.pos m) e) by (apply Z.shiftl_nonneg; lia).
    assert (~ 0 <= Z.shiftl (- Z.pos m) e) by (rewrite Z.shiftl_nonneg; lia).
    lia.
Qed.

(** ** A successful conversion *)

Lemma get_In s n c : String.get n s = Some c -> In c (list_ascii_of_string s).
Proof.
  revert n. induction s as [|a s IH]; intros n Hget; simpl in *; [discriminate|].
  destruct n as [|n]; [left; congruence | right; eapply IH, Hget].
Qed.

Lemma newline_free_effective invert g :
  newline_free g -> newline_free (effective_gradient invert g).
Proof.
  destruct invert; simpl; [|trivial]. unfold newline_free, reversed.
  rewrite list_ascii_of_string_of_list_ascii, <- in_rev. trivial.
Qed.

Lemma new_height_ge_1 orig_h width orig_w y_scale nh :
  new_height orig_h width orig_w y_scale = Ok nh -> 1 <= nh.
Proof.
  unfold new_height.
  destruct (scaled_height _ _ _ _) as [v|]; simpl; [|discriminate].
  destruct (int_of_float v); simpl; [|discriminate].
  intros Heq; inversion Heq; lia.
Qed.

Lemma Forall2_In_r {A B} (P : A -> B -> Prop) (l : list A) (k : list B) (b : B) :
  Forall2 P l k -> In b k -> exists a, In a l /\ P a b.
Proof.
  induction 1 as [|a b' l k HP _ IH]; simpl; [tauto|].
  intros [-> | Hin]; [eauto|].
  destruct (IH Hin) as (a' & Ha' & HP'); eauto.
Qed.

Lemma render_ok `{Resampler} img width y_scale g nh :
  wf_bitmap img -> 0 < bm_width img -> 0 < bm_height img ->
  1 <= width -> 2 <= len g ->
  new_height (bm_height img) width (bm_width img) y_scale = Ok nh ->
  exists out chars lines,
    resize img width nh = Ok out /\ bm_width out = width /\ bm_height out = nh /\
    map_pixels g (getdata out) = Ok chars /\
    Forall2 (fun p c => String.get (Z.to_nat (gradient_index (len g) p)) g = Some c)
            (getdata out) chars /\
    make_lines chars width = Ok lines /\
    Z.of_nat (length lines) = nh /\
    List.Forall (fun l => len l = width /\
                          forall c, In c (list_ascii_of_string l) ->
                                    In c (list_ascii_of_string g)) lines /\
    render img width y_scale g = Ok (join (String newline EmptyString) lines).
Proof.
  intros Hwf Hw0 Hh0 Hw Hg Hnh.
  pose proof (new_height_ge_1 _ _ _ _ _ Hnh) as Hnh1.
  destruct (resize_ok img width nh Hwf Hw0 Hh0 Hw Hnh1)
    as (out & Hres & Hwo & Hho & (_ & _ & Hlen & Hpx)).
  destruct (map_pixels_ok g (getdata out) Hg Hpx) as (chars & Hmap & Hchars).
  assert (Hclen : Z.of_nat (length chars) = width * nh).
  { rewrite <- (Forall2_length _ _ _ Hchars), Hlen, Hwo, Hho. reflexivity. }
  destruct (make_lines_ok chars width nh Hw ltac:(lia) Hclen)
    as (lines & Hlines & Hn & Hall).
  exists out, chars, lines. repeat split; try assumption.
  - eapply List.Forall_impl; [|exact Hall]. intros l [Hl Hin]. split; [exact Hl|].
    intros c Hc. apply Hin in Hc.
    destruct (Forall2_In_r _ _ _ _ Hchars Hc) as (p & _ & Hget).
    eapply get_In, Hget.
  - unfold render. rewrite Hnh; simpl. rewrite Hres; simpl.
    rewrite Hmap; simpl. rewrite Hlines; reflexivity.
Qed.

(** ** Properties of the specification *)

Ltac wf_sample :=
  unfold wf_bitmap, pixel_ok; simpl;
  repeat split; try lia; repeat constructor; lia.



(** C9. For [0 <= p <= 255] and a gradient of length [n >= 2], the index
    [p * (n - 1) // 255] lies in [0, n - 1], and the lookup does not fail. *)
Theorem C9_index_in_bounds (gradient : string) (p : Z) :
  2 <= len gradient -> 0 <= p <= 255 ->
  0 <= gradient_index (len gradient) p <= len gradient - 1 /\
  exists c, getitem gradient (gradient_index (len gradient) p) = Ok c.
Proof.
  intros Hn Hp. pose proof (gradient_index_bounds _ _ Hn Hp) as Hb.
  split; [exact Hb|].
  destruct (getitem_in_range gradient (gradient_index (len gradient) p))
    as (c & Hc & _); [lia | eauto].
Qed.

Lemma C9_index_in_bounds_witness :
  2 <= len DEFAULT_GRADIENT /\ 0 <= 255 <= 255 /\
  0 <= gradient_index (len DEFAULT_GRADIENT) 255 <= len DEFAULT_GRADIENT - 1 /\
  exists c, getitem DEFAULT_GRADIENT (gradient_index (len DEFAULT_GRADIENT) 255) = Ok c.
Proof.
  assert (H2 : 2 <= len DEFAULT_GRADIENT) by (unfold len; simpl; lia).
  assert (Hp : 0 <= 255 <= 255) by lia.
  split; [exact H2|]. split; [exact Hp|].
  exact (C9_index_in_bounds DEFAULT_GRADIENT 255 H2 Hp).
Defined.

(** C3. Converting with [invert = True] and gradient [G] returns what
    converting with [invert = False] and the reversed gradient returns,
    for the same image, width and y-scale. *)
Theorem C3_invert_is_reverse `{Resampler} (path : string) (width : Z)
    (y_scale : spec_float) (G : string) (w : world) :
  image_to_ascii path width y_scale true (Some G) w
  = image_to_ascii path width y_scale false (Some (reversed G)) w.
Proof.
  apply injective_projections.
  - rewrite !image_to_ascii_result. simpl gradient_or_default.
    rewrite len_reversed. reflexivity.
  - rewrite !image_to_ascii_read_only. reflexivity.
Qed.

(** C5. A gradient of length below 2 makes the conversion fail with
    InvalidParameterError, whatever the file at the path holds. *)
Theorem C5_short_gradient `{Resampler} (path : string) (width : Z)
    (y_scale : spec_float) (invert : bool) (g : string) (w : world) :
  is_Some (fs w !! path) -> len g < 2 ->
  fst (image_to_ascii path width y_scale invert (Some g) w)
  = Raise InvalidParameterError.
Proof.
  intros [f Hf] Hg. rewrite image_to_ascii_result, Hf. simpl gradient_or_default.
  replace (len g <? 2) with true by (symmetry; apply Z.ltb_lt; exact Hg).
  reflexivity.
Qed.

Lemma C5_short_gradient_witness :
  is_Some (fs disk !! "notes.txt") /\ len "x" < 2 /\
  fst (image_to_ascii "notes.txt" 100 one false (Some "x") disk)
  = Raise InvalidParameterError.
Proof.
  assert (Hf : is_Some (fs disk !! "notes.txt")) by (exists OtherFile; reflexivity).
  assert (Hg : len "x" < 2) by (unfold len; simpl; lia).
  split; [exact Hf|]. split; [exact Hg|].
  exact (C5_short_gradient "notes.txt" 100 one false "x" disk Hf Hg).
Defined.

(** The empty gradient and a one-character gradient, on an image and on a
    file that is not an image. *)
Example short_gradients :
  fst (image_to_ascii "gray.png" 100 one false (Some "") disk)
  = Raise InvalidParameterError /\
  fst (image_to_ascii "gray.png" 100 one true (Some "x") disk)
  = Raise InvalidParameterError /\
  fst (image_to_ascii "notes.txt" 100 one false (Some "x") disk)
  = Raise InvalidParameterError.
Proof. repeat split; reflexivity. Qed.

(** C6, as the program has it. With a gradient of at least 2 characters,
    a source image of width 0 or height 0 makes the conversion fail with
    InvalidImageError; no text is produced. *)
Theorem C6_zero_dimension `{Resampler} (path : string) (img : bitmap) (width : Z)
    (y_scale : spec_float) (invert : bool) (gradient : option string)
    (w : world) :
  fs w !! path = Some (ImageFile img) ->
  bm_width img = 0 \/ bm_height img = 0 ->
  2 <= len (gradient_or_default gradient) ->
  fst (image_to_ascii path width y_scale invert gradient w)
  = Raise InvalidImageError /\
  is_ok (fst (image_to_ascii path width y_scale invert gradient w)) = false.
Proof.
  intros Hf Hzero Hg.
  assert (Hres : fst (image_to_ascii path width y_scale invert gradient w)
                 = Raise InvalidImageError).
  { rewrite image_to_ascii_result, Hf.
    replace (len (gradient_or_default gradient) <? 2) with false
      by (symmetry; apply Z.ltb_ge; exact Hg).
    replace ((bm_width img =? 0) || (bm_height img =? 0)) with true; [reflexivity|].
    symmetry. apply orb_true_iff. rewrite !Z.eqb_eq. exact Hzero. }
  rewrite Hres. split; reflexivity.
Qed.

Lemma C6_zero_dimension_witness :
  fs disk !! "empty.png" = Some (ImageFile no_columns) /\
  (bm_width no_columns = 0 \/ bm_height no_columns = 0) /\
  2 <= len (gradient_or_default None) /\
  fst (image_to_ascii "empty.png" 100 one false None disk)
  = Raise InvalidImageError /\
  is_ok (fst (image_to_ascii "empty.png" 100 one false None disk)) = false.
Proof.
  assert (Hf : fs disk !! "empty.png" = Some (ImageFile no_columns)) by reflexivity.
  assert (Hz : bm_width no_columns = 0 \/ bm_height no_columns = 0)
    by (left; reflexivity).
  assert (Hg : 2 <= len (gradient_or_default None)) by (unfold len; simpl; lia).
  split; [exact Hf|]. split; [exact Hz|]. split; [exact Hg|].
  exact (C6_zero_dimension "empty.png" no_columns 100 one false None disk Hf Hz Hg).
Defined.

(** C6 as stated fails: the gradient is checked before the image is
    opened, so a 0 x 5 image with the gradient ["x"] fails with
    InvalidParameterError. *)
Lemma C6_counterexample :
  fs disk !! "empty.png" = Some (ImageFile no_columns) /\
  bm_width no_columns = 0 /\
  fst (image_to_ascii "empty.png" 100 one false (Some "x") disk)
  = Raise InvalidParameterError /\
  InvalidParameterError <> InvalidImageError.
Proof. repeat split; discriminate. Qed.

(** C10. A path that names no file raises the file-not-found error before
    the gradient is looked at: with a gradient of length below 2 too, the
    error is the file error and not InvalidParameterError. *)
Theorem C10_missing_file_first `{Resampler} (path : string) (width : Z)
    (y_scale : spec_float) (invert : bool) (gradient : option string)
    (w : world) :
  fs w !! path = None ->
  fst (image_to_ascii path width y_scale invert gradient w)
  = Raise (FileNotFoundError ("Input image not found: " +:+ path)) /\
  fst (image_to_ascii path width y_scale invert gradient w)
  <> Raise InvalidParameterError.
Proof.
  intros Hnone. rewrite image_to_ascii_result, Hnone.
  split; [reflexivity | discriminate].
Qed.

Lemma C10_missing_file_first_witness :
  fs disk !! "missing.png" = None /\
  fst (image_to_ascii "missing.png" 100 one false (Some "x") disk)
  = Raise (FileNotFoundError ("Input image not found: " +:+ "missing.png")) /\
  fst (image_to_ascii "missing.png" 100 one false (Some "x") disk)
  <> Raise InvalidParameterError.
Proof.
  assert (Hnone : fs disk !! "missing.png" = None) by reflexivity.
  split; [exact Hnone|].
  exact (C10_missing_file_first "missing.png" 100 one false (Some "x") disk Hnone).
Defined.

(** C8. Converting the same image with the same parameters twice gives
    the same result: the first run leaves the world as it was, and the
    second run, started where the first one ended, returns what the first
    returned. *)
Theorem C8_deterministic `{Resampler} (path : string) (width : Z)
    (y_scale : spec_float) (invert : bool) (gradient : option string)
    (w : world) :
  let convert := image_to_ascii path width y_scale invert gradient in
  let '(r1, w1) := convert w in
  let '(r2, w2) := convert w1 in
  r1 = r2 /\ w2 = w.
Proof.
  intros convert.
  pose proof (image_to_ascii_read_only path width y_scale invert gradient w) as Hw.
  fold convert in Hw. destruct (convert w) as [r1 w1] eqn:H1.
  simpl in Hw; subst w1. rewrite H1. split; reflexivity.
Qed.

(** C4, as the program has it. For an image of positive width and height,
    a positive target width (the three of them below [2^53]) and a positive
    y-scale, take the product [orig_h * (width / orig_w) * y_scale] in IEEE
    754 double precision. Either it is finite, and the height used for
    resizing is [max(1, floor(product))], which is at least 1; or it is
    plus infinity, and line 88 raises OverflowError. *)
Theorem C4_new_height (orig_h width orig_w : Z) (y_scale : spec_float) :
  0 < orig_w < 2 ^ 53 -> 0 < orig_h < 2 ^ 53 -> 0 < width < 2 ^ 53 ->
  float_pos y_scale ->
  (exists nh,
      spec_new_height orig_h width orig_w y_scale = Some nh /\
      new_height orig_h width orig_w y_scale = Ok nh /\
      1 <= nh) \/
  (spec_product orig_h width orig_w y_scale = S754_infinity false /\
   new_height orig_h width orig_w y_scale
   = Raise (OverflowError "cannot convert float infinity to integer")).
Proof.
  intros How Hh Hw Hy.
  pose proof (int_of_float_spec (spec_product orig_h width orig_w y_scale)) as Hint.
  pose proof (scaled_height_spec orig_h width orig_w y_scale Hh Hw How) as Hv.
  destruct (spec_product_positive orig_h width orig_w y_scale Hh Hw How Hy)
    as [[q Hq] | Hinf].
  - left. rewrite Hq in Hint. destruct Hint as (i & Hi & Hmax).
    exists (Z.max 1 (Qfloor q)). unfold spec_new_height, new_height.
    rewrite Hq, Hv; simpl. rewrite Hi; simpl.
    split; [reflexivity|]. split; [f_equal; exact Hmax | lia].
  - right. split; [exact Hinf|].
    unfold new_height. rewrite Hv, Hinf. reflexivity.
Qed.

Lemma C4_new_height_witness :
  0 < 640 < 2 ^ 53 /\ 0 < 480 < 2 ^ 53 /\ 0 < 100 < 2 ^ 53 /\
  float_pos (float_lit 1 (-1)) /\
  ((exists nh,
       spec_new_height 480 100 640 (float_lit 1 (-1)) = Some nh /\
       new_height 480 100 640 (float_lit 1 (-1)) = Ok nh /\
       1 <= nh) \/
   (spec_product 480 100 640 (float_lit 1 (-1)) = S754_infinity false /\
    new_height 480 100 640 (float_lit 1 (-1))
    = Raise (OverflowError "cannot convert float infinity to integer"))).
Proof.
  assert (Hw : 0 < 640 < 2 ^ 53) by (split; reflexivity).
  assert (Hh : 0 < 480 < 2 ^ 53) by (split; reflexivity).
  assert (Ht : 0 < 100 < 2 ^ 53) by (split; reflexivity).
  assert (Hy : float_pos (float_lit 1 (-1))) by reflexivity.
  split; [exact Hw|]. split; [exact Hh|]. split; [exact Ht|]. split; [exact Hy|].
  exact (C4_new_height 480 100 640 (float_lit 1 (-1)) Hw Hh Ht Hy).
Defined.

(** C4 as stated fails: a 1 x 2 image at width 1 with the positive
    y-scale [2.0 ** 1023] has an infinite product, [int] raises
    OverflowError, and nothing is resized or returned. *)
Lemma C4_counterexample :
  0 < bm_width tall /\ 0 < bm_height tall /\ 0 < 1 /\ float_pos huge /\
  new_height (bm_height tall) 1 (bm_width tall) huge
  = Raise (OverflowError "cannot convert float infinity to integer") /\
  fst (image_to_ascii "tall.png" 1 huge false None disk)
  = Raise (OverflowError "cannot convert float infinity to integer").
Proof. vm_compute. repeat split; reflexivity. Qed.

(** The product is rounded at each operation: for a 49 x 98 image at
    width 1 and y-scale 1.0 the program computes [1.9999999999999998] and a
    height of 1, where the same expression over the rationals gives 2. *)
Example new_height_rounding :
  scaled_height 98 1 49 one = Ok (S754_finite false 9007199254740991 (-52)) /\
  spec_product 98 1 49 one = S754_finite false 9007199254740991 (-52) /\
  new_height 98 1 49 one = Ok 1 /\
  spec_new_height 98 1 49 one = Some 1 /\
  Qfloor (inject_Z 98 * (inject_Z 1 / inject_Z 49) * inject_Z 1) = 2.
Proof. repeat split; reflexivity. Qed.




(** C2, as the program has it. For a decodable image of positive size, a
    width [W >= 1], a gradient of at least 2 characters none of which is a
    newline, and a height computation that succeeds with [newHeight], the
    returned string split on newlines has [newHeight] rows, each of length
    [W], and does not end in a newline. *)
Theorem C2_rectangular `{Resampler} (path : string) (img : bitmap) (width : Z)
    (y_scale : spec_float) (invert : bool) (gradient : option string)
    (w : world) (new_h : Z) :
  fs w !! path = Some (ImageFile img) -> wf_bitmap img ->
  0 < bm_width img -> 0 < bm_height img -> 1 <= width ->
  2 <= len (gradient_or_default gradient) ->
  newline_free (gradient_or_default gradient) ->
  new_height (bm_height img) width (bm_width img) y_scale = Ok new_h ->
  exists s,
    fst (image_to_ascii path width y_scale invert gradient w) = Ok s /\
    Z.of_nat (length (split_lines s)) = new_h /\
    Forall (fun row => len row = width) (split_lines s) /\
    ends_with_newline s = false.
Proof.
  intros Hf Hwf Hw0 Hh0 Hw Hg Hnl Hnh.
  set (g := effective_gradient invert (gradient_or_default gradient)).
  assert (Hg' : 2 <= len g) by (unfold g; rewrite len_effective_gradient; exact Hg).
  assert (Hnl' : newline_free g) by (apply newline_free_effective, Hnl).
  destruct (render_ok img width y_scale g new_h Hwf Hw0 Hh0 Hw Hg' Hnh)
    as (out & chars & lines & _ & _ & _ & _ & _ & _ & Hn & Hall & Hrender).
  pose proof (new_height_ge_1 _ _ _ _ _ Hnh) as Hnh1.
  rewrite image_to_ascii_result, Hf.
  replace (len (gradient_or_default gradient) <? 2) with false
    by (symmetry; apply Z.ltb_ge; exact Hg).
  replace ((bm_width img =? 0) || (bm_height img =? 0)) with false
    by (symmetry; apply orb_false_iff; rewrite !Z.eqb_neq; lia).
  fold g. rewrite Hrender. eexists. split; [reflexivity|].
  assert (Hfree : List.Forall newline_free lines).
  { eapply List.Forall_impl; [|exact Hall]. intros l [_ Hin] Hbad.
    apply Hnl', Hin, Hbad. }
  rewrite split_lines_join; [|destruct lines; [simpl in Hn; lia | discriminate]|exact Hfree].
  split; [exact Hn|]. split.
  - eapply List.Forall_impl; [|exact Hall]. intros l [Hl _]. exact Hl.
  - apply ends_with_newline_join.
    apply List.Forall_forall. intros l Hl. rewrite List.Forall_forall in Hall, Hfree.
    split; [|apply Hfree, Hl].
    destruct (Hall l Hl) as [Hlen _]. intros ->. unfold len in Hlen. simpl in Hlen. lia.
Qed.

Lemma C2_rectangular_witness :
  fs disk !! "gray.png" = Some (ImageFile gray2x2) /\ wf_bitmap gray2x2 /\
  0 < bm_width gray2x2 /\ 0 < bm_height gray2x2 /\ 1 <= 2 /\
  2 <= len (gradient_or_default None) /\
  newline_free (gradient_or_default None) /\
  new_height (bm_height gray2x2) 2 (bm_width gray2x2) one = Ok 2 /\
  exists s,
    fst (image_to_ascii "gray.png" 2 one false None disk) = Ok s /\
    Z.of_nat (length (split_lines s)) = 2 /\
    Forall (fun row => len row = 2) (split_lines s) /\
    ends_with_newline s = false.
Proof.
  assert (Hf : fs disk !! "gray.png" = Some (ImageFile gray2x2)) by reflexivity.
  assert (Hwf : wf_bitmap gray2x2) by wf_sample.
  assert (Hw0 : 0 < bm_width gray2x2) by (simpl; lia).
  assert (Hh0 : 0 < bm_height gray2x2) by (simpl; lia).
  assert (Hw : 1 <= 2) by lia.
  assert (Hg : 2 <= len (gradient_or_default None)) by (unfold len; simpl; lia).
  assert (Hnl : newline_free (gradient_or_default None)).
  { unfold newline_free; simpl. intros Hin.
    repeat (destruct Hin as [Hin | Hin]; [discriminate Hin|]). exact Hin. }
  assert (Hnh : new_height (bm_height gray2x2) 2 (bm_width gray2x2) one = Ok 2)
    by reflexivity.
  repeat (split; [assumption|]).
  exact (C2_rectangular "gray.png" gray2x2 2 one false None disk 2
           Hf Hwf Hw0 Hh0 Hw Hg Hnl Hnh).
Defined.

(** C2 as stated fails: a gradient may hold a newline. The 1 x 1 black
    image at width 1 with the two-character gradient newline, space is
    converted to a single newline; the height is 1, and the split has two
    rows, both empty. *)
Lemma C2_counterexample :
  2 <= len (String newline " ") /\
  new_height (bm_height dot) 1 (bm_width dot) one = Ok 1 /\
  fst (image_to_ascii "dot.png" 1 one false (Some (String newline " ")) disk)
  = Ok (String newline "") /\
  split_lines (String newline "") = [""; ""] /\
  ends_with_newline (String newline "") = true.
Proof. split; [unfold len; simpl; lia | repeat split; reflexivity]. Qed.

(** The end-to-end example of the specification: a 2 x 2 image of
    intensity 128 at width 2 and y-scale 1.0 gives two rows of [++]. *)
Example mid_gray_2x2 :
  fst (image_to_ascii "gray.png" 2 one false None disk)
  = Ok ("++" +:+ String newline "++").
Proof. reflexivity. Qed.

(** * Further properties of the program *)

(** ** The brightness mapping of line 96 *)

(** X1. A brighter pixel never maps to an earlier gradient character:
    [p * (n - 1) // 255] grows with [p]. *)
Theorem gradient_index_monotone (n p q : Z) :
  1 <= n -> p <= q -> gradient_index n p <= gradient_index n q.
Proof.
  intros Hn Hpq. unfold gradient_index.
  apply Z.div_le_mono; [lia | nia].
Qed.

Lemma gradient_index_monotone_witness :
  1 <= 10 /\ 100 <= 200 /\ gradient_index 10 100 <= gradient_index 10 200.
Proof.
  assert (Hn : 1 <= 10) by lia.
  assert (Hpq : 100 <= 200) by lia.
  split; [exact Hn|]. split; [exact Hpq|].
  exact (gradient_index_monotone 10 100 200 Hn Hpq).
Defined.

(** X2. The last gradient character is emitted for intensity 255 only:
    flooring sends every intensity below 255 to an index below [n - 1]. *)
Theorem last_character_only_for_white (gradient : string) (p : Z) :
  2 <= len gradient -> 0 <= p <= 255 ->
  (gradient_index (len gradient) p = len gradient - 1 <-> p = 255).
Proof.
  intros Hn Hp. unfold gradient_index. split.
  - intros Heq. destruct (Z.eq_dec p 255) as [|Hne]; [assumption|].
    assert (p * (len gradient - 1) / 255 < len gradient - 1)
      by (apply Z.div_lt_upper_bound; nia).
    lia.
  - intros ->. rewrite Z.mul_comm. apply Z.div_mul. lia.
Qed.

Lemma last_character_only_for_white_witness :
  2 <= len "ab" /\ 0 <= 254 <= 255 /\
  (gradient_index (len "ab") 254 = len "ab" - 1 <-> 254 = 255).
Proof.
  assert (Hn : 2 <= len "ab") by (unfold len; simpl; lia).
  assert (Hp : 0 <= 254 <= 255) by lia.
  split; [exact Hn|]. split; [exact Hp|].
  exact (last_character_only_for_white "ab" 254 Hn Hp).
Defined.

(** X3. With a gradient of at most 256 characters every character is in
    use: each index is the image of some intensity in [0,255]. *)
Theorem every_character_reachable (gradient : string) (i : Z) :
  2 <= len gradient <= 256 -> 0 <= i <= len gradient - 1 ->
  exists p c, 0 <= p <= 255 /\ gradient_index (len gradient) p = i /\
              map_pixels gradient [p] = Ok [c] /\
              String.get (Z.to_nat i) gradient = Some c.
Proof.
  intros Hn Hi. set (n := len gradient) in *.
  set (p := (255 * i + (n - 2)) / (n - 1)).
  assert (Hlo : 255 * i <= p * (n - 1)).
  { unfold p.
    pose proof (Z.mul_div_le (255 * i + (n - 2)) (n - 1) ltac:(lia)).
    pose proof (Z.mod_pos_bound (255 * i + (n - 2)) (n - 1) ltac:(lia)).
    pose proof (Z.div_mod (255 * i + (n - 2)) (n - 1) ltac:(lia)). nia. }
  assert (Hhi : p * (n - 1) <= 255 * i + (n - 2)).
  { unfold p. rewrite Z.mul_comm. apply Z.mul_div_le. lia. }
  assert (Hp : 0 <= p <= 255).
  { split; [unfold p; apply Z.div_pos; nia|].
    assert (p < 256) by (unfold p; apply Z.div_lt_upper_bound; nia). lia. }
  assert (Hidx : gradient_index n p = i).
  { unfold gradient_index. symmetry.
    apply Z.div_unique with (r := p * (n - 1) - 255 * i); lia. }
  destruct (getitem_in_range gradient i ltac:(fold n; lia)) as (c & Hc & Hget).
  exists p, c. split; [exact Hp|]. split; [exact Hidx|]. split; [|exact Hget].
  unfold map_pixels; simpl. fold n. rewrite Hidx, Hc. reflexivity.
Qed.

Lemma every_character_reachable_witness :
  2 <= len DEFAULT_GRADIENT <= 256 /\ 0 <= 7 <= len DEFAULT_GRADIENT - 1 /\
  exists p c, 0 <= p <= 255 /\ gradient_index (len DEFAULT_GRADIENT) p = 7 /\
              map_pixels DEFAULT_GRADIENT [p] = Ok [c] /\
              String.get (Z.to_nat 7) DEFAULT_GRADIENT = Some c.
Proof.
  assert (Hn : 2 <= len DEFAULT_GRADIENT <= 256) by (unfold len; simpl; lia).
  assert (Hi : 0 <= 7 <= len DEFAULT_GRADIENT - 1) by (unfold len; simpl; lia).
  split; [exact Hn|]. split; [exact Hi|].
  exact (every_character_reachable DEFAULT_GRADIENT 7 Hn Hi).
Defined.

(** X4. A gradient of more than 256 characters has characters no pixel
    can reach: the one before the last is never emitted. *)
Theorem long_gradient_skips_characters (n p : Z) :
  257 <= n -> 0 <= p <= 255 -> gradient_index n p <> n - 2.
Proof.
  intros Hn Hp Heq. unfold gradient_index in Heq.
  destruct (Z.eq_dec p 255) as [->|Hne].
  - rewrite Z.mul_comm, Z.div_mul in Heq; lia.
  - assert (p * (n - 1) / 255 < n - 2)
      by (apply Z.div_lt_upper_bound; nia).
    lia.
Qed.

Lemma long_gradient_skips_characters_witness :
  257 <= 300 /\ 0 <= 254 <= 255 /\ gradient_index 300 254 <> 300 - 2.
Proof.
  assert (Hn : 257 <= 300) by lia.
  assert (Hp : 0 <= 254 <= 255) by lia.
  split; [exact Hn|]. split; [exact Hp|].
  exact (long_gradient_skips_characters 300 254 Hn Hp).
Defined.

(** ** Inversion, line 78 *)

Lemma get_lookup s n : String.get n s = list_ascii_of_string s !! n.
Proof.
  revert n. induction s as [|a s IH]; intros [|n]; simpl; try reflexivity.
  apply IH.
Qed.




(** ** The layout of the output, lines 96 to 100 *)

Lemma image_to_ascii_render `{Resampler} path img width y_scale invert gradient w :
  fs w !! path = Some (ImageFile img) ->
  0 < bm_width img -> 0 < bm_height img ->
  2 <= len (gradient_or_default gradient) ->
  fst (image_to_ascii path width y_scale invert gradient w)
  = render img width y_scale
      (effective_gradient invert (gradient_or_default gradient)).
Proof.
  intros Hf Hw0 Hh0 Hg. rewrite image_to_ascii_result, Hf.
  replace (len (gradient_or_default gradient) <? 2) with false
    by (symmetry; apply Z.ltb_ge; exact Hg).
  replace ((bm_width img =? 0) || (bm_height img =? 0)) with false
    by (symmetry; apply orb_false_iff; rewrite !Z.eqb_neq; lia).
  reflexivity.
Qed.

Lemma make_lines_rows chars width n :
  1 <= width -> 0 <= n -> Z.of_nat (length chars) = width * n ->
  make_lines chars width
  = Ok ((fun k => join_chars (take (Z.to_nat width)
                                   (drop (Z.to_nat (k * width)) chars)))
          <$> seqZ 0 n).
Proof.
  intros Hw Hn Hlen. unfold make_lines. rewrite Hlen, range_rows by assumption.
  simpl. f_equal. rewrite <- list_fmap_compose.
  apply Forall_fmap_ext, Forall_seqZ. intros k Hk. simpl.
  destruct (slice_row chars k width) as [-> _]; [lia | lia | nia |].
  reflexivity.
Qed.

Lemma list_ascii_of_string_app a b :
  list_ascii_of_string (a +:+ b) = list_ascii_of_string a ++ list_ascii_of_string b.
Proof.
  induction a as [|c a IH]; [reflexivity|].
  change (c :: list_ascii_of_string (a +:+ b)
          = c :: (list_ascii_of_string a ++ list_ascii_of_string b)).
  f_equal. exact IH.
Qed.

Lemma length_concat_rows (lines : list string) (W : nat) :
  List.Forall (fun l => String.length l = W) lines -> lines <> [] ->
  S (String.length (String.concat (String newline EmptyString) lines))
  = (length lines * S W)%nat.
Proof.
  induction 1 as [|l lines Hl Hrest IH]; intros Hne; [congruence|].
  destruct lines as [|l' lines].
  - simpl. lia.
  - change (String.concat (String newline EmptyString) (l :: l' :: lines))
      with (l +:+ String newline
                    (String.concat (String newline EmptyString) (l' :: lines))).
    specialize (IH ltac:(discriminate)).
    rewrite <- length_list_ascii_of_string in *.
    rewrite list_ascii_of_string_app, length_app. simpl in *. lia.
Qed.

Lemma get_concat_rows (lines : list string) (W r c : nat) (l : string) :
  List.Forall (fun l => String.length l = W) lines ->
  lines !! r = Some l -> (c < W)%nat ->
  String.get (r * S W + c) (String.concat (String newline EmptyString) lines)
  = String.get c l.
Proof.
  intros Hall. revert r. induction Hall as [|l0 lines Hl0 Hrest IH]; intros r Hr Hc.
  - discriminate.
  - destruct lines as [|l' lines].
    + destruct r as [|r]; [|destruct r; discriminate].
      simpl in Hr. inversion Hr; subst. reflexivity.
    + change (String.concat (String newline EmptyString) (l0 :: l' :: lines))
        with (l0 +:+ String newline
                       (String.concat (String newline EmptyString) (l' :: lines))).
      destruct r as [|r].
      * simpl in Hr. inversion Hr; subst. simpl.
        symmetry. apply append_correct1. lia.
      * simpl in Hr.
        replace (S r * S W + c)%nat
          with (S (r * S W + c) + String.length l0)%nat by lia.
        rewrite <- append_correct2. simpl. apply IH; assumption.
Qed.

Lemma get_newline_rows (lines : list string) (W r : nat) :
  List.Forall (fun l => String.length l = W) lines ->
  (S r < length lines)%nat ->
  String.get (r * S W + W) (String.concat (String newline EmptyString) lines)
  = Some newline.
Proof.
  intros Hall. revert r. induction Hall as [|l0 lines Hl0 Hrest IH]; intros r Hr.
  - simpl in Hr. lia.
  - destruct lines as [|l' lines]; [simpl in Hr; lia|].
    change (String.concat (String newline EmptyString) (l0 :: l' :: lines))
      with (l0 +:+ String newline
                     (String.concat (String newline EmptyString) (l' :: lines))).
    destruct r as [|r].
    + replace (0 * S W + W)%nat with (0 + String.length l0)%nat by lia.
      rewrite <- append_correct2. reflexivity.
    + replace (S r * S W + W)%nat
        with (S (r * S W + W) + String.length l0)%nat by lia.
      rewrite <- append_correct2. simpl. apply IH. simpl in Hr |- *. lia.
Qed.

Lemma In_concat_rows (lines : list string) (ch : ascii) :
  In ch (list_ascii_of_string (String.concat (String newline EmptyString) lines)) ->
  ch = newline \/ exists l, In l lines /\ In ch (list_ascii_of_string l).
Proof.
  induction lines as [|l lines IH]; [simpl; tauto|].
  destruct lines as [|l' lines].
  - simpl. intros Hin. right. exists l. auto.
  - change (String.concat (String newline EmptyString) (l :: l' :: lines))
      with (l +:+ String newline
                    (String.concat (String newline EmptyString) (l' :: lines))).
    rewrite list_ascii_of_string_app. intros Hin.
    apply in_app_or in Hin as [Hin | Hin].
    + right. exists l. split; [left; reflexivity | exact Hin].
    + simpl in Hin. destruct Hin as [<- | Hin]; [left; reflexivity|].
      destruct (IH Hin) as [-> | (l1 & Hl1 & Hch)]; [left; reflexivity|].
      right. exists l1. split; [right; exact Hl1 | exact Hch].
Qed.

Lemma render_rows `{Resampler} img width y_scale g nh :
  wf_bitmap img -> 0 < bm_width img -> 0 < bm_height img ->
  1 <= width -> 2 <= len g ->
  new_height (bm_height img) width (bm_width img) y_scale = Ok nh ->
  exists out chars,
    resize img width nh = Ok out /\
    Z.of_nat (length chars) = width * nh /\
    Forall2 (fun p c => getitem g (gradient_index (len g) p) = Ok c)
            (getdata out) chars /\
    render img width y_scale g
    = Ok (join (String newline EmptyString)
            ((fun k => join_chars (take (Z.to_nat width)
                                        (drop (Z.to_nat (k * width)) chars)))
               <$> seqZ 0 nh)).
Proof.
  intros Hwf Hw0 Hh0 Hw Hg Hnh.
  pose proof (new_height_ge_1 _ _ _ _ _ Hnh) as Hnh1.
  destruct (resize_ok img width nh Hwf Hw0 Hh0 Hw Hnh1)
    as (out & Hres & Hwo & Hho & (_ & _ & Hlen & Hpx)).
  assert (Hitems : List.Forall
            (fun p => exists c, getitem g (gradient_index (len g) p) = Ok c /\
                                getitem g (gradient_index (len g) p) = Ok c)
            (getdata out)).
  { eapply List.Forall_impl; [|exact Hpx]. intros p Hp.
    destruct (getitem_in_range g (gradient_index (len g) p)) as (c & Hc & _).
    - pose proof (gradient_index_bounds (len g) p Hg Hp). lia.
    - eauto. }
  destruct (rmap_Forall2 _ _ _ Hitems) as (chars & Hmap & Hchars).
  assert (Hclen : Z.of_nat (length chars) = width * nh).
  { rewrite <- (Forall2_length _ _ _ Hchars), Hlen, Hwo, Hho. reflexivity. }
  exists out, chars. repeat split; try assumption.
  unfold render. rewrite Hnh; simpl. rewrite Hres; simpl.
  unfold map_pixels. rewrite Hmap; simpl.
  rewrite (make_lines_rows chars width nh) by (assumption || lia). reflexivity.
Qed.

Lemma rows_length (chars : list ascii) (width nh : Z) :
  1 <= width -> 0 <= nh -> Z.of_nat (length chars) = width * nh ->
  List.Forall (fun l => String.length l = Z.to_nat width)
    ((fun k => join_chars (take (Z.to_nat width)
                                (drop (Z.to_nat (k * width)) chars)))
       <$> seqZ 0 nh).
Proof.
  intros Hw Hn Hlen. apply Forall_fmap, Forall_seqZ. intros k Hk. simpl.
  unfold join_chars.
  rewrite length_string_of_list_ascii, length_take, length_drop. nia.
Qed.

(** X6. The returned text has [new_h * (width + 1) - 1] characters:
    [new_h] rows of [width] characters and one newline between two rows,
    whatever the gradient holds. *)
Theorem output_length `{Resampler} (path : string) (img : bitmap) (width : Z)
    (y_scale : spec_float) (invert : bool) (gradient : option string)
    (w : world) (new_h : Z) :
  fs w !! path = Some (ImageFile img) -> wf_bitmap img ->
  0 < bm_width img -> 0 < bm_height img -> 1 <= width ->
  2 <= len (gradient_or_default gradient) ->
  new_height (bm_height img) width (bm_width img) y_scale = Ok new_h ->
  exists s,
    fst (image_to_ascii path width y_scale invert gradient w) = Ok s /\
    len s = new_h * (width + 1) - 1.
Proof.
  intros Hf Hwf Hw0 Hh0 Hw Hg Hnh.
  pose proof (new_height_ge_1 _ _ _ _ _ Hnh) as Hnh1.
  rewrite (image_to_ascii_render path img) by assumption.
  destruct (render_rows img width y_scale
              (effective_gradient invert (gradient_or_default gradient)) new_h)
    as (out & chars & _ & Hclen & _ & ->);
    try assumption; [rewrite len_effective_gradient; exact Hg|].
  eexists. split; [reflexivity|]. unfold len, join.
  pose proof (length_concat_rows _ _ (rows_length chars width new_h Hw ltac:(lia) Hclen))
    as Hlen.
  rewrite length_fmap, length_seqZ in Hlen.
  assert (Hne : (fun k => join_chars (take (Z.to_nat width)
                                           (drop (Z.to_nat (k * width)) chars)))
                  <$> seqZ 0 new_h <> []).
  { intros Heq. apply (f_equal length) in Heq.
    rewrite length_fmap, length_seqZ in Heq. simpl in Heq. lia. }
  specialize (Hlen Hne). nia.
Qed.

Lemma output_length_witness :
  fs disk !! "gray.png" = Some (ImageFile gray2x2) /\ wf_bitmap gray2x2 /\
  0 < bm_width gray2x2 /\ 0 < bm_height gray2x2 /\ 1 <= 5 /\
  2 <= len (gradient_or_default None) /\
  new_height (bm_height gray2x2) 5 (bm_width gray2x2) one = Ok 5 /\
  exists s,
    fst (image_to_ascii "gray.png" 5 one true None disk) = Ok s /\
    len s = 5 * (5 + 1) - 1.
Proof.
  assert (Hf : fs disk !! "gray.png" = Some (ImageFile gray2x2)) by reflexivity.
  assert (Hwf : wf_bitmap gray2x2) by wf_sample.
  assert (Hw0 : 0 < bm_width gray2x2) by (simpl; lia).
  assert (Hh0 : 0 < bm_height gray2x2) by (simpl; lia).
  assert (Hw : 1 <= 5) by lia.
  assert (Hg : 2 <= len (gradient_or_default None)) by (unfold len; simpl; lia).
  assert (Hnh : new_height (bm_height gray2x2) 5 (bm_width gray2x2) one = Ok 5)
    by reflexivity.
  repeat (split; [assumption|]).
  exact (output_length "gray.png" gray2x2 5 one true None disk 5
           Hf Hwf Hw0 Hh0 Hw Hg Hnh).
Defined.

(** X7. The text is the resized image, row by row: the character at
    column [c] of row [r], which stands at offset [r * (width + 1) + c], is
    the gradient character of the resized pixel number [r * width + c], and
    every row but the last is followed by a newline. *)
Theorem output_layout `{Resampler} (path : string) (img : bitmap) (width : Z)
    (y_scale : spec_float) (invert : bool) (gradient : option string)
    (w : world) (new_h : Z) :
  fs w !! path = Some (ImageFile img) -> wf_bitmap img ->
  0 < bm_width img -> 0 < bm_height img -> 1 <= width ->
  2 <= len (gradient_or_default gradient) ->
  new_height (bm_height img) width (bm_width img) y_scale = Ok new_h ->
  let g := effective_gradient invert (gradient_or_default gradient) in
  exists out s,
    resize img width new_h = Ok out /\
    fst (image_to_ascii path width y_scale invert gradient w) = Ok s /\
    (forall r c : nat, Z.of_nat r < new_h -> Z.of_nat c < width ->
       exists p ch,
         getdata out !! (r * Z.to_nat width + c)%nat = Some p /\
         getitem g (gradient_index (len g) p) = Ok ch /\
         String.get (r * S (Z.to_nat width) + c) s = Some ch) /\
    (forall r : nat, Z.of_nat (S r) < new_h ->
       String.get (r * S (Z.to_nat width) + Z.to_nat width) s = Some newline).
Proof.
  intros Hf Hwf Hw0 Hh0 Hw Hg Hnh g.
  pose proof (new_height_ge_1 _ _ _ _ _ Hnh) as Hnh1.
  rewrite (image_to_ascii_render path img) by assumption. fold g.
  destruct (render_rows img width y_scale g new_h)
    as (out & chars & Hres & Hclen & Hchars & ->);
    try assumption; [unfold g; rewrite len_effective_gradient; exact Hg|].
  exists out. eexists. split; [exact Hres|]. split; [reflexivity|].
  pose proof (rows_length chars width new_h Hw ltac:(lia) Hclen) as Hrows.
  unfold join. split.
  - intros r c Hr Hc.
    set (k := (r * Z.to_nat width + c)%nat).
    assert (Hk : (k < length chars)%nat) by (unfold k; nia).
    destruct (lookup_lt_is_Some_2 chars k Hk) as [ch Hch].
    destruct (Forall2_lookup_r _ _ _ _ _ Hchars Hch) as (p & Hp & Hitem).
    exists p, ch. split; [exact Hp|]. split; [exact Hitem|].
    rewrite (get_concat_rows _ (Z.to_nat width) r c
               (join_chars (take (Z.to_nat width)
                                 (drop (Z.to_nat (Z.of_nat r * width)) chars))));
      [|exact Hrows| |lia].
    + unfold join_chars.
      rewrite get_lookup, list_ascii_of_string_of_list_ascii.
      rewrite lookup_take_lt by lia. rewrite lookup_drop.
      replace (Z.to_nat (Z.of_nat r * width) + c)%nat with k by (unfold k; nia).
      exact Hch.
    + rewrite list_lookup_fmap, lookup_seqZ_lt by lia. reflexivity.
  - intros r Hr. apply get_newline_rows; [exact Hrows|].
    rewrite length_fmap, length_seqZ. lia.
Qed.

Lemma output_layout_witness :
  fs disk !! "tall.png" = Some (ImageFile tall) /\ wf_bitmap tall /\
  0 < bm_width tall /\ 0 < bm_height tall /\ 1 <= 3 /\
  2 <= len (gradient_or_default None) /\
  new_height (bm_height tall) 3 (bm_width tall) one = Ok 6 /\
  (let g := effective_gradient false (gradient_or_default None) in
   exists out s,
     resize tall 3 6 = Ok out /\
     fst (image_to_ascii "tall.png" 3 one false None disk) = Ok s /\
     (forall r c : nat, Z.of_nat r < 6 -> Z.of_nat c < 3 ->
        exists p ch,
          getdata out !! (r * Z.to_nat 3 + c)%nat = Some p /\
          getitem g (gradient_index (len g) p) = Ok ch /\
          String.get (r * S (Z.to_nat 3) + c) s = Some ch) /\
     (forall r : nat, Z.of_nat (S r) < 6 ->
        String.get (r * S (Z.to_nat 3) + Z.to_nat 3) s = Some newline)).
Proof.
  assert (Hf : fs disk !! "tall.png" = Some (ImageFile tall)) by reflexivity.
  assert (Hwf : wf_bitmap tall) by wf_sample.
  assert (Hw0 : 0 < bm_width tall) by (simpl; lia).
  assert (Hh0 : 0 < bm_height tall) by (simpl; lia).
  assert (Hw : 1 <= 3) by lia.
  assert (Hg : 2 <= len (gradient_or_default None)) by (unfold len; simpl; lia).
  assert (Hnh : new_height (bm_height tall) 3 (bm_width tall) one = Ok 6)
    by reflexivity.
  repeat (split; [assumption|]).
  exact (output_layout "tall.png" tall 3 one false None disk 6
           Hf Hwf Hw0 Hh0 Hw Hg Hnh).
Defined.

(** X8. The text holds nothing but gradient characters and newlines. *)
Theorem output_alphabet `{Resampler} (path : string) (img : bitmap) (width : Z)
    (y_scale : spec_float) (invert : bool) (gradient : option string)
    (w : world) (new_h : Z) :
  fs w !! path = Some (ImageFile img) -> wf_bitmap img ->
  0 < bm_width img -> 0 < bm_height img -> 1 <= width ->
  2 <= len (gradient_or_default gradient) ->
  new_height (bm_height img) width (bm_width img) y_scale = Ok new_h ->
  exists s,
    fst (image_to_ascii path width y_scale invert gradient w) = Ok s /\
    forall ch, In ch (list_ascii_of_string s) ->
               ch = newline \/
               In ch (list_ascii_of_string (gradient_or_default gradient)).
Proof.
  intros Hf Hwf Hw0 Hh0 Hw Hg Hnh.
  rewrite (image_to_ascii_render path img) by assumption.
  set (g := effective_gradient invert (gradient_or_default gradient)).
  destruct (render_ok img width y_scale g new_h)
    as (out & chars & lines & _ & _ & _ & _ & _ & _ & _ & Hall & ->);
    try assumption; [unfold g; rewrite len_effective_gradient; exact Hg|].
  eexists. split; [reflexivity|]. intros ch Hch.
  apply In_concat_rows in Hch as [-> | (l & Hl & Hch)]; [left; reflexivity|].
  right. rewrite List.Forall_forall in Hall. destruct (Hall l Hl) as [_ Hsub].
  apply Hsub in Hch. unfold g, effective_gradient in Hch.
  destruct invert; [|exact Hch].
  unfold reversed in Hch.
  rewrite list_ascii_of_string_of_list_ascii in Hch. apply in_rev, Hch.
Qed.

Lemma output_alphabet_witness :
  fs disk !! "tall.png" = Some (ImageFile tall) /\ wf_bitmap tall /\
  0 < bm_width tall /\ 0 < bm_height tall /\ 1 <= 3 /\
  2 <= len (gradient_or_default (Some "#.")) /\
  new_height (bm_height tall) 3 (bm_width tall) one = Ok 6 /\
  exists s,
    fst (image_to_ascii "tall.png" 3 one true (Some "#.") disk) = Ok s /\
    forall ch, In ch (list_ascii_of_string s) ->
               ch = newline \/
               In ch (list_ascii_of_string (gradient_or_default (Some "#."))).
Proof.
  assert (Hf : fs disk !! "tall.png" = Some (ImageFile tall)) by reflexivity.
  assert (Hwf : wf_bitmap tall) by wf_sample.
  assert (Hw0 : 0 < bm_width tall) by (simpl; lia).
  assert (Hh0 : 0 < bm_height tall) by (simpl; lia).
  assert (Hw : 1 <= 3) by lia.
  assert (Hg : 2 <= len (gradient_or_default (Some "#."))) by (unfold len; simpl; lia).
  assert (Hnh : new_height (bm_height tall) 3 (bm_width tall) one = Ok 6)
    by reflexivity.
  repeat (split; [assumption|]).
  exact (output_alphabet "tall.png" tall 3 one true (Some "#.") disk 6
           Hf Hwf Hw0 Hh0 Hw Hg Hnh).
Defined.

(** ** The height computation of line 88 at its edges *)

Lemma float_mul_non_finite x y :
  SFis_finite y = false -> SFis_finite (float_mul x y) = false.
Proof.
  unfold float_mul. destruct x, y; simpl; intros; try reflexivity; discriminate.
Qed.

Lemma new_height_non_finite orig_h width orig_w y_scale :
  SFis_finite y_scale = false ->
  is_ok (new_height orig_h width orig_w y_scale) = false.
Proof.
  intros Hy. unfold new_height, scaled_height.
  destruct (int_truediv width orig_w) as [ratio|]; simpl; [|reflexivity].
  destruct (float_of_int orig_h) as [h|]; simpl; [|reflexivity].
  pose proof (float_mul_non_finite (float_mul h ratio) y_scale Hy) as Hv.
  destruct (float_mul (float_mul h ratio) y_scale); simpl in *;
    try discriminate; reflexivity.
Qed.

(** X9. A y-scale that is not a finite number (inf, -inf, nan) never
    gives a text: whatever the other arguments and the files are, the
    conversion raises. *)
Theorem non_finite_y_scale_fails `{Resampler} (path : string) (width : Z)
    (y_scale : spec_float) (invert : bool) (gradient : option string)
    (w : world) :
  SFis_finite y_scale = false ->
  is_ok (fst (image_to_ascii path width y_scale invert gradient w)) = false.
Proof.
  intros Hy. rewrite image_to_ascii_result.
  destruct (fs w !! path) as [[img|]|]; [| |reflexivity].
  - destruct (len (gradient_or_default gradient) <? 2); [reflexivity|].
    destruct ((bm_width img =? 0) || (bm_height img =? 0)); [reflexivity|].
    unfold render.
    pose proof (new_height_non_finite (bm_height img) width (bm_width img)
                  y_scale Hy) as Hnh.
    destruct (new_height _ _ _ _); [discriminate | reflexivity].
  - destruct (len (gradient_or_default gradient) <? 2); reflexivity.
Qed.

Lemma non_finite_y_scale_fails_witness :
  SFis_finite (S754_infinity false) = false /\
  is_ok (fst (image_to_ascii "gray.png" 2 (S754_infinity false) false None disk))
  = false.
Proof.
  assert (Hy : SFis_finite (S754_infinity false) = false) by reflexivity.
  split; [exact Hy|].
  exact (non_finite_y_scale_fails "gray.png" 2 (S754_infinity false) false None
           disk Hy).
Defined.

(** X10. Past the check of line 84 the width is not zero, and the height
    computation never raises ZeroDivisionError: it gives a height of at
    least 1, or raises OverflowError, or the ValueError of [int] on a NaN. *)
Theorem new_height_outcomes (orig_h width orig_w : Z) (y_scale : spec_float) :
  orig_w <> 0 ->
  match new_height orig_h width orig_w y_scale with
  | Ok nh => 1 <= nh
  | Raise (OverflowError _) => True
  | Raise (ValueError msg) => msg = "cannot convert float NaN to integer"
  | Raise _ => False
  end.
Proof.
  intros How. unfold new_height, scaled_height.
  assert (Hdiv : match int_truediv width orig_w with
                 | Ok _ | Raise (OverflowError _) => True
                 | Raise _ => False
                 end).
  { unfold int_truediv. destruct width, orig_w; try congruence; try exact I;
      destruct (SFdiv_core_binary _ _ _ _ _ _) as [[mz ez] lz];
      destruct (binary_round_aux _ _ _ _ _ _); exact I. }
  destruct (int_truediv width orig_w) as [ratio|e]; simpl.
  - assert (Hconv : match float_of_int orig_h with
                    | Ok _ | Raise (OverflowError _) => True
                    | Raise _ => False
                    end).
    { unfold float_of_int.
      destruct (binary_normalize prec emax orig_h 0 false); exact I. }
    destruct (float_of_int orig_h) as [h|e]; simpl;
      [|destruct e; try contradiction; exact I].
    destruct (float_mul (float_mul h ratio) y_scale); simpl; try exact I;
      try reflexivity; lia.
  - destruct e; try contradiction; exact I.
Qed.

Lemma new_height_outcomes_witness :
  640 <> 0 /\
  match new_height 480 100 640 (float_lit 1 (-1)) with
  | Ok nh => 1 <= nh
  | Raise (OverflowError _) => True
  | Raise (ValueError msg) => msg = "cannot convert float NaN to integer"
  | Raise _ => False
  end.
Proof.
  assert (How : 640 <> 0) by lia.
  split; [exact How|].
  exact (new_height_outcomes 480 100 640 (float_lit 1 (-1)) How).
Defined.

(** * The command line program *)

(** ** [main], lines 138 to 161

    [main] is modelled from the point where [parse_args] has returned the
    [argparse.Namespace]; [argparse] itself is not modelled. Of its host
    the program needs three things, which are taken as given: the text of
    Pillow's error for a file it cannot identify, whether a path can be
    opened for writing (and the text of the error when it cannot), and
    what Pillow makes of a file that holds a given text. Opening a file
    for writing is the only step of the write that can fail here. *)

Class Host : Type := {
  cannot_identify : string -> string;
  open_w_error : string -> option string;
  decode_text : string -> option bitmap
}.

(** The parsed arguments. *)
Record Namespace : Type := {
  args_input : string;
  args_width : Z;
  args_y_scale : spec_float;
  args_invert : bool;
  args_gradient : option string;
  args_output : option string
}.

(** The state of the process: the files Pillow sees, the text of the
    files written, and what was printed on the two streams, one entry
    for each call of [print], end of line included. *)
Record os : Type := {
  os_disk : world;
  os_text : gmap string string;
  os_stdout : list string;
  os_stderr : list string
}.

(** [str(e)] for an exception raised while converting [input]. *)
Definition exn_str `{Host} (input : string) (e : exn) : string :=
  match e with
  | FileNotFoundError msg | ValueError msg | OverflowError msg
  | ZeroDivisionError msg | IndexError msg => msg
  | UnidentifiedImageError => cannot_identify input
  end.

(** [print(s)] and [print(s, file=sys.stderr)] *)
Definition print_stdout (s : string) (o : os) : os :=
  {| os_disk := os_disk o; os_text := os_text o;
     os_stdout := os_stdout o ++ [s +:+ String newline EmptyString];
     os_stderr := os_stderr o |}.

Definition print_stderr (s : string) (o : os) : os :=
  {| os_disk := os_disk o; os_text := os_text o;
     os_stdout := os_stdout o;
     os_stderr := os_stderr o ++ [s +:+ String newline EmptyString] |}.

(** The file at [path] after [f.write(text)] on a file opened with ["w"]. *)
Definition write_text `{Host} (path text : string) (o : os) : os :=
  {| os_disk :=
       World (<[path := match decode_text text with
                        | Some img => ImageFile img
                        | None => OtherFile
                        end]> (fs (os_disk o)));
     os_text := <[path := text]> (os_text o);
     os_stdout := os_stdout o;
     os_stderr := os_stderr o |}.

(** The output path when [args.output] is true: neither [None] nor [""]. *)
Definition output_given (output : option string) : option string :=
  match output with
  | Some (String c rest) => Some (String c rest)
  | Some EmptyString | None => None
  end.

Section main.
Context `{Resampler} `{Host}.

Definition main (args : Namespace) (o : os) : Z * os :=
  let '(r, disk') :=
    image_to_ascii (args_input args) (args_width args) (args_y_scale args)
      (args_invert args) (args_gradient args) (os_disk o) in
  let o := {| os_disk := disk'; os_text := os_text o;
              os_stdout := os_stdout o; os_stderr := os_stderr o |} in
  match r with
  | Raise e =>
      (1, print_stderr ("Error: " +:+ exn_str (args_input args) e) o)
  | Ok ascii_art =>
      match output_given (args_output args) with
      | Some path =>
          match open_w_error path with
          | None =>
              (0, print_stdout ("ASCII art written to: " +:+ path)
                    (write_text path ascii_art o))
          | Some msg =>
              (1, print_stderr ("Failed to write output file: " +:+ msg) o)
          end
      | None => (0, print_stdout ascii_art o)
      end
  end.

End main.

(** A host where every path but the root directory can be written, and
    where a text file is never an image. *)
#[export] Instance sample_host : Host := {|
  cannot_identify path := "cannot identify image file '" +:+ path +:+ "'";
  open_w_error path :=
    if String.eqb path "/" then Some "[Errno 21] Is a directory: '/'" else None;
  decode_text _ := None
|}.

Definition sample_os : os :=
  {| os_disk := disk; os_text := ∅; os_stdout := []; os_stderr := [] |}.

Definition sample_args (input : string) (output : option string) : Namespace :=
  {| args_input := input; args_width := 2; args_y_scale := one;
     args_invert := false; args_gradient := None; args_output := output |}.

Example main_prints_gray :
  main (sample_args "gray.png" None) sample_os
  = (0, {| os_disk := disk; os_text := ∅;
           os_stdout := ["++" +:+ String newline ("++" +:+ String newline "")];
           os_stderr := [] |}).
Proof. reflexivity. Qed.

Example main_missing :
  main (sample_args "nothing.png" (Some "out.txt")) sample_os
  = (1, {| os_disk := disk; os_text := ∅; os_stdout := [];
           os_stderr := ["Error: Input image not found: nothing.png"
                           +:+ String newline ""] |}).
Proof. reflexivity. Qed.

(** ** What a run of [main] does *)

(** The conversion that [main] runs first. *)
Definition conversion `{Resampler} (args : Namespace) (o : os) : res string :=
  fst (image_to_ascii (args_input args) (args_width args) (args_y_scale args)
         (args_invert args) (args_gradient args) (os_disk o)).

Lemma main_result `{Resampler} `{Host} (args : Namespace) (o : os) :
  main args o =
  match conversion args o with
  | Raise e => (1, print_stderr ("Error: " +:+ exn_str (args_input args) e) o)
  | Ok ascii_art =>
      match output_given (args_output args) with
      | Some path =>
          match open_w_error path with
          | None =>
              (0, print_stdout ("ASCII art written to: " +:+ path)
                    (write_text path ascii_art o))
          | Some msg =>
              (1, print_stderr ("Failed to write output file: " +:+ msg) o)
          end
      | None => (0, print_stdout ascii_art o)
      end
  end.
Proof.
  unfold main, conversion.
  pose proof (image_to_ascii_read_only (args_input args) (args_width args)
                (args_y_scale args) (args_invert args) (args_gradient args)
                (os_disk o)) as Hw.
  destruct (image_to_ascii _ _ _ _ _ _) as [r d]. simpl in *. subst d.
  destruct o; reflexivity.
Qed.

Lemma output_given_Some output path :
  output = Some path -> path <> EmptyString -> output_given output = Some path.
Proof. intros -> Hne. destruct path; [congruence | reflexivity]. Qed.

Lemma output_given_None output :
  output = None \/ output = Some EmptyString -> output_given output = None.
Proof. intros [-> | ->]; reflexivity. Qed.

(** X11. When the conversion raises, [main] returns 1 and prints one line,
    [Error: ] and the message of the exception, on the error stream; it
    prints nothing on the output stream and touches no file, the output
    file included. *)
Theorem main_conversion_failure `{Resampler} `{Host} (args : Namespace)
    (o : os) (e : exn) :
  conversion args o = Raise e ->
  fst (main args o) = 1 /\
  os_stderr (snd (main args o))
  = os_stderr o ++ ["Error: " +:+ exn_str (args_input args) e
                      +:+ String newline EmptyString] /\
  os_stdout (snd (main args o)) = os_stdout o /\
  os_disk (snd (main args o)) = os_disk o /\
  os_text (snd (main args o)) = os_text o.
Proof.
  intros He. rewrite main_result, He. repeat split; reflexivity.
Qed.

Lemma main_conversion_failure_witness :
  conversion (sample_args "empty.png" (Some "out.txt")) sample_os
  = Raise InvalidImageError /\
  fst (main (sample_args "empty.png" (Some "out.txt")) sample_os) = 1 /\
  os_stderr (snd (main (sample_args "empty.png" (Some "out.txt")) sample_os))
  = os_stderr sample_os
    ++ ["Error: "
          +:+ exn_str (args_input (sample_args "empty.png" (Some "out.txt")))
                InvalidImageError
          +:+ String newline EmptyString] /\
  os_stdout (snd (main (sample_args "empty.png" (Some "out.txt")) sample_os))
  = os_stdout sample_os /\
  os_disk (snd (main (sample_args "empty.png" (Some "out.txt")) sample_os))
  = os_disk sample_os /\
  os_text (snd (main (sample_args "empty.png" (Some "out.txt")) sample_os))
  = os_text sample_os.
Proof.
  assert (He : conversion (sample_args "empty.png" (Some "out.txt")) sample_os
               = Raise InvalidImageError) by reflexivity.
  split; [exact He|].
  exact (main_conversion_failure (sample_args "empty.png" (Some "out.txt"))
           sample_os InvalidImageError He).
Defined.

(** X12. With an input path that names no file, [main] returns 1 and its
    one line of output is [Error: Input image not found: ] and the path, on
    the error stream, whatever the other arguments are. *)
Theorem main_missing_input `{Resampler} `{Host} (args : Namespace) (o : os) :
  fs (os_disk o) !! args_input args = None ->
  main args o
  = (1, print_stderr ("Error: Input image not found: " +:+ args_input args) o).
Proof.
  intros Hnone. rewrite main_result. unfold conversion.
  rewrite image_to_ascii_result, Hnone. reflexivity.
Qed.

Lemma main_missing_input_witness :
  fs (os_disk sample_os) !! args_input (sample_args "nothing.png" (Some "out.txt"))
  = None /\
  main (sample_args "nothing.png" (Some "out.txt")) sample_os
  = (1, print_stderr
          ("Error: Input image not found: "
             +:+ args_input (sample_args "nothing.png" (Some "out.txt")))
          sample_os).
Proof.
  assert (Hnone : fs (os_disk sample_os)
                    !! args_input (sample_args "nothing.png" (Some "out.txt"))
                  = None) by reflexivity.
  split; [exact Hnone|].
  exact (main_missing_input (sample_args "nothing.png" (Some "out.txt"))
           sample_os Hnone).
Defined.

(** X13. Without an output path ([None], or the empty string) a
    successful run returns 0 and prints the text, followed by an end of
    line, on the output stream; nothing else changes. *)
Theorem main_prints `{Resampler} `{Host} (args : Namespace) (o : os)
    (ascii_art : string) :
  args_output args = None \/ args_output args = Some EmptyString ->
  conversion args o = Ok ascii_art ->
  fst (main args o) = 0 /\
  os_stdout (snd (main args o))
  = os_stdout o ++ [ascii_art +:+ String newline EmptyString] /\
  os_stderr (snd (main args o)) = os_stderr o /\
  os_disk (snd (main args o)) = os_disk o /\
  os_text (snd (main args o)) = os_text o.
Proof.
  intros Hout Hs. rewrite main_result, Hs, (output_given_None _ Hout).
  repeat split; reflexivity.
Qed.

Lemma main_prints_witness :
  (args_output (sample_args "gray.png" (Some EmptyString)) = None \/
   args_output (sample_args "gray.png" (Some EmptyString)) = Some EmptyString) /\
  conversion (sample_args "gray.png" (Some EmptyString)) sample_os
  = Ok ("++" +:+ String newline "++") /\
  fst (main (sample_args "gray.png" (Some EmptyString)) sample_os) = 0 /\
  os_stdout (snd (main (sample_args "gray.png" (Some EmptyString)) sample_os))
  = os_stdout sample_os
    ++ [("++" +:+ String newline "++") +:+ String newline EmptyString] /\
  os_stderr (snd (main (sample_args "gray.png" (Some EmptyString)) sample_os))
  = os_stderr sample_os /\
  os_disk (snd (main (sample_args "gray.png" (Some EmptyString)) sample_os))
  = os_disk sample_os /\
  os_text (snd (main (sample_args "gray.png" (Some EmptyString)) sample_os))
  = os_text sample_os.
Proof.
  assert (Hout : args_output (sample_args "gray.png" (Some EmptyString)) = None \/
                 args_output (sample_args "gray.png" (Some EmptyString))
                 = Some EmptyString) by (right; reflexivity).
  assert (Hs : conversion (sample_args "gray.png" (Some EmptyString)) sample_os
               = Ok ("++" +:+ String newline "++")) by reflexivity.
  split; [exact Hout|]. split; [exact Hs|].
  exact (main_prints (sample_args "gray.png" (Some EmptyString)) sample_os
           ("++" +:+ String newline "++") Hout Hs).
Defined.

(** X14. With an output path that can be opened for writing, a successful
    run returns 0, leaves in that file the text and nothing more (no end of
    line is added), and prints [ASCII art written to: ] and the path on the
    output stream; every other file is as it was. *)
Theorem main_writes `{Resampler} `{Host} (args : Namespace) (o : os)
    (path ascii_art : string) :
  args_output args = Some path -> path <> EmptyString ->
  open_w_error path = None ->
  conversion args o = Ok ascii_art ->
  fst (main args o) = 0 /\
  os_text (snd (main args o)) !! path = Some ascii_art /\
  os_stdout (snd (main args o))
  = os_stdout o ++ ["ASCII art written to: " +:+ path
                      +:+ String newline EmptyString] /\
  os_stderr (snd (main args o)) = os_stderr o /\
  (forall other, other <> path ->
     fs (os_disk (snd (main args o))) !! other = fs (os_disk o) !! other /\
     os_text (snd (main args o)) !! other = os_text o !! other).
Proof.
  intros Hout Hne Hopen Hs.
  rewrite main_result, Hs, (output_given_Some _ _ Hout Hne), Hopen. simpl.
  split; [reflexivity|]. split; [apply lookup_insert_eq|].
  split; [reflexivity|]. split; [reflexivity|].
  intros other Hother. split; apply lookup_insert_ne; congruence.
Qed.

Lemma main_writes_witness :
  args_output (sample_args "gray.png" (Some "out.txt")) = Some "out.txt" /\
  "out.txt" <> EmptyString /\
  open_w_error "out.txt" = None /\
  conversion (sample_args "gray.png" (Some "out.txt")) sample_os
  = Ok ("++" +:+ String newline "++") /\
  fst (main (sample_args "gray.png" (Some "out.txt")) sample_os) = 0 /\
  os_text (snd (main (sample_args "gray.png" (Some "out.txt")) sample_os))
    !! "out.txt" = Some ("++" +:+ String newline "++") /\
  os_stdout (snd (main (sample_args "gray.png" (Some "out.txt")) sample_os))
  = os_stdout sample_os ++ ["ASCII art written to: " +:+ "out.txt"
                              +:+ String newline EmptyString] /\
  os_stderr (snd (main (sample_args "gray.png" (Some "out.txt")) sample_os))
  = os_stderr sample_os /\
  (forall other, other <> "out.txt" ->
     fs (os_disk (snd (main (sample_args "gray.png" (Some "out.txt")) sample_os)))
       !! other = fs (os_disk sample_os) !! other /\
     os_text (snd (main (sample_args "gray.png" (Some "out.txt")) sample_os))
       !! other = os_text sample_os !! other).
Proof.
  assert (Hout : args_output (sample_args "gray.png" (Some "out.txt"))
                 = Some "out.txt") by reflexivity.
  assert (Hne : "out.txt" <> EmptyString) by discriminate.
  assert (Hopen : open_w_error "out.txt" = None) by reflexivity.
  assert (Hs : conversion (sample_args "gray.png" (Some "out.txt")) sample_os
               = Ok ("++" +:+ String newline "++")) by reflexivity.
  split; [exact Hout|]. split; [exact Hne|]. split; [exact Hopen|].
  split; [exact Hs|].
  exact (main_writes (sample_args "gray.png" (Some "out.txt")) sample_os
           "out.txt" ("++" +:+ String newline "++") Hout Hne Hopen Hs).
Defined.

(** X15. When the output file cannot be opened, [main] returns 1 and
    prints [Failed to write output file: ] and the reason on the error
    stream; the text is not printed and no file changes. *)
Theorem main_write_failure `{Resampler} `{Host} (args : Namespace) (o : os)
    (path ascii_art msg : string) :
  args_output args = Some path -> path <> EmptyString ->
  open_w_error path = Some msg ->
  conversion args o = Ok ascii_art ->
  fst (main args o) = 1 /\
  os_stderr (snd (main args o))
  = os_stderr o ++ ["Failed to write output file: " +:+ msg
                      +:+ String newline EmptyString] /\
  os_stdout (snd (main args o)) = os_stdout o /\
  os_disk (snd (main args o)) = os_disk o /\
  os_text (snd (main args o)) = os_text o.
Proof.
  intros Hout Hne Hopen Hs.
  rewrite main_result, Hs, (output_given_Some _ _ Hout Hne), Hopen.
  repeat split; reflexivity.
Qed.

Lemma main_write_failure_witness :
  args_output (sample_args "gray.png" (Some "/")) = Some "/" /\
  "/" <> EmptyString /\
  open_w_error "/" = Some "[Errno 21] Is a directory: '/'" /\
  conversion (sample_args "gray.png" (Some "/")) sample_os
  = Ok ("++" +:+ String newline "++") /\
  fst (main (sample_args "gray.png" (Some "/")) sample_os) = 1 /\
  os_stderr (snd (main (sample_args "gray.png" (Some "/")) sample_os))
  = os_stderr sample_os
    ++ ["Failed to write output file: " +:+ "[Errno 21] Is a directory: '/'"
          +:+ String newline EmptyString] /\
  os_stdout (snd (main (sample_args "gray.png" (Some "/")) sample_os))
  = os_stdout sample_os /\
  os_disk (snd (main (sample_args "gray.png" (Some "/")) sample_os))
  = os_disk sample_os /\
  os_text (snd (main (sample_args "gray.png" (Some "/")) sample_os))
  = os_text sample_os.
Proof.
  assert (Hout : args_output (sample_args "gray.png" (Some "/")) = Some "/")
    by reflexivity.
  assert (Hne : "/" <> EmptyString) by discriminate.
  assert (Hopen : open_w_error "/" = Some "[Errno 21] Is a directory: '/'")
    by reflexivity.
  assert (Hs : conversion (sample_args "gray.png" (Some "/")) sample_os
               = Ok ("++" +:+ String newline "++")) by reflexivity.
  split; [exact Hout|]. split; [exact Hne|]. split; [exact Hopen|].
  split; [exact Hs|].
  exact (main_write_failure (sample_args "gray.png" (Some "/")) sample_os
           "/" ("++" +:+ String newline "++") "[Errno 21] Is a directory: '/'"
           Hout Hne Hopen Hs).
Defined.

(** X16. [main] returns 0 exactly when the conversion succeeds and the
    output file, if one is asked for, can be opened; otherwise it
    returns 1. *)
Theorem main_exit_code `{Resampler} `{Host} (args : Namespace) (o : os) :
  (fst (main args o) = 0 \/ fst (main args o) = 1) /\
  (fst (main args o) = 0 <->
   is_ok (conversion args o) = true /\
   match output_given (args_output args) with
   | Some path => open_w_error path = None
   | None => True
   end).
Proof.
  rewrite main_result.
  destruct (conversion args o) as [s|e]; simpl.
  - destruct (output_given (args_output args)) as [path|]; simpl.
    + destruct (open_w_error path) as [msg|]; simpl.
      * split; [right; reflexivity|]. split; [discriminate|].
        intros [_ Hopen]; discriminate.
      * split; [left; reflexivity|]. split; [auto|reflexivity].
    + split; [left; reflexivity|]. split; [auto|reflexivity].
  - split; [right; reflexivity|]. split; [discriminate|].
    intros [Hok _]; discriminate.
Qed.

(** X17. Every run calls [print] exactly once, and on one stream only:
    the output stream when it returns 0, the error stream when it
    returns 1. What is printed may span several lines. *)
Theorem main_prints_once `{Resampler} `{Host} (args : Namespace) (o : os) :
  exists text,
    (fst (main args o) = 0 /\
     os_stdout (snd (main args o)) = os_stdout o ++ [text] /\
     os_stderr (snd (main args o)) = os_stderr o) \/
    (fst (main args o) = 1 /\
     os_stderr (snd (main args o)) = os_stderr o ++ [text] /\
     os_stdout (snd (main args o)) = os_stdout o).
Proof.
  rewrite main_result.
  destruct (conversion args o) as [s|e]; simpl.
  - destruct (output_given (args_output args)) as [path|]; simpl.
    + destruct (open_w_error path) as [msg|]; simpl; eexists;
        [right | left]; repeat split; reflexivity.
    + eexists. left. repeat split; reflexivity.
  - eexists. right. repeat split; reflexivity.
Qed.

Lemma conversion_ok_gradient `{Resampler} (args : Namespace) (o : os) (s : string) :
  conversion args o = Ok s ->
  (len (gradient_or_default (args_gradient args)) <? 2) = false.
Proof.
  unfold conversion. rewrite image_to_ascii_result.
  destruct (fs (os_disk o) !! args_input args); [|discriminate].
  destruct (len (gradient_or_default (args_gradient args)) <? 2);
    [discriminate | reflexivity].
Qed.

(** X18. Nothing keeps the output path apart from the input path. When
    they are the same and the text is not an image for Pillow, a
    successful run replaces the image by its text, and the same command
    run again returns 1 with Pillow's message for a file it cannot
    identify. *)
Theorem main_overwrites_input `{Resampler} `{Host} (args : Namespace) (o : os)
    (ascii_art : string) :
  args_output args = Some (args_input args) ->
  args_input args <> EmptyString ->
  open_w_error (args_input args) = None ->
  conversion args o = Ok ascii_art ->
  decode_text ascii_art = None ->
  fst (main args o) = 0 /\
  os_text (snd (main args o)) !! args_input args = Some ascii_art /\
  main args (snd (main args o))
  = (1, print_stderr ("Error: " +:+ cannot_identify (args_input args))
          (snd (main args o))).
Proof.
  intros Hout Hne Hopen Hs Hdec.
  pose proof (conversion_ok_gradient args o ascii_art Hs) as Hg.
  assert (Hrun : main args o
                 = (0, print_stdout ("ASCII art written to: " +:+ args_input args)
                         (write_text (args_input args) ascii_art o))).
  { rewrite main_result, Hs, (output_given_Some _ _ Hout Hne), Hopen.
    reflexivity. }
  rewrite Hrun. simpl. split; [reflexivity|].
  split; [apply lookup_insert_eq|].
  rewrite main_result. unfold conversion. rewrite image_to_ascii_result. simpl.
  rewrite lookup_insert_eq, Hg, Hdec. reflexivity.
Qed.

Lemma main_overwrites_input_witness :
  args_output (sample_args "gray.png" (Some "gray.png"))
  = Some (args_input (sample_args "gray.png" (Some "gray.png"))) /\
  args_input (sample_args "gray.png" (Some "gray.png")) <> EmptyString /\
  open_w_error (args_input (sample_args "gray.png" (Some "gray.png"))) = None /\
  conversion (sample_args "gray.png" (Some "gray.png")) sample_os
  = Ok ("++" +:+ String newline "++") /\
  decode_text ("++" +:+ String newline "++") = None /\
  fst (main (sample_args "gray.png" (Some "gray.png")) sample_os) = 0 /\
  os_text (snd (main (sample_args "gray.png" (Some "gray.png")) sample_os))
    !! args_input (sample_args "gray.png" (Some "gray.png"))
  = Some ("++" +:+ String newline "++") /\
  main (sample_args "gray.png" (Some "gray.png"))
    (snd (main (sample_args "gray.png" (Some "gray.png")) sample_os))
  = (1, print_stderr
          ("Error: "
             +:+ cannot_identify
                   (args_input (sample_args "gray.png" (Some "gray.png"))))
          (snd (main (sample_args "gray.png" (Some "gray.png")) sample_os))).
Proof.
  assert (Hout : args_output (sample_args "gray.png" (Some "gray.png"))
                 = Some (args_input (sample_args "gray.png" (Some "gray.png"))))
    by reflexivity.
  assert (Hne : args_input (sample_args "gray.png" (Some "gray.png"))
                <> EmptyString) by discriminate.
  assert (Hopen : open_w_error
                    (args_input (sample_args "gray.png" (Some "gray.png")))
                  = None) by reflexivity.
  assert (Hs : conversion (sample_args "gray.png" (Some "gray.png")) sample_os
               = Ok ("++" +:+ String newline "++")) by reflexivity.
  assert (Hdec : decode_text ("++" +:+ String newline "++") = None)
    by reflexivity.
  split; [exact Hout|]. split; [exact Hne|]. split; [exact Hopen|].
  split; [exact Hs|]. split; [exact Hdec|].
  exact (main_overwrites_input (sample_args "gray.png" (Some "gray.png"))
           sample_os ("++" +:+ String newline "++") Hout Hne Hopen Hs Hdec).
Defined.
